(** * The JSONL line mappers of [azureml/components/src/shared]

    A shallow embedding of [jsonl_utils.py] (the sequential [line_map]) and
    [jsonl_utils_parallel.py] ([_map_wrapper], [_get_error_file],
    [line_map_parallel]), followed by the properties proved about them.

    Conventions of the embedding.
    - A record is a JSON value as [json.loads] builds it.  Numbers are Python
      ints (unbounded, [Z]); dictionaries keep their insertion order, so they
      are association lists; strings are sequences of code points below 256.
    - [json.dumps] is the standard library's default encoder
      (ensure_ascii, separators ', ' and ': ').
    - A transform ([map_func]) is a function of the record that either
      returns a record or None, or raises an [Exception]; this is the
      signature both mappers give it.  It does not change the record it is
      given.
    - The source is the list of records the reader yields: the source file
      exists and every line of it parses.
    - A file object is the text written through it; closing it commits that
      text to its path in the file system, a finite map from paths to
      contents.  Files are texts: the encodings handed to [open] only decide
      their bytes.  Logging has no effect on any of this and is left out. *)

From Stdlib Require Import ZArith NArith Ascii String List Lia DecimalString Permutation Floats.
From Stdlib Require DecimalZ DecimalPos DecimalFacts.
From stdpp Require Import gmap strings list.

Local Open Scope Z_scope.
#[local] Set Warnings "-register-all".

(** ** JSON values and [json.dumps] *)

(** Python's None and JSON's null are one value, [JNull]: [json.loads] reads
    null as None and [json.dumps] writes None as null. *)

Inductive json : Type :=
| JNull
| JBool (b : bool)
| JInt (n : Z)
| JStr (s : string)
| JList (items : list json)
| JDict (fields : list (string * json)).

Definition quote_char : ascii := ascii_of_N 34.
Definition backslash_char : ascii := ascii_of_N 92.
Definition newline_char : ascii := ascii_of_N 10.

(** The line terminator the mappers write: Python's "\n". *)
Definition newline : string := String newline_char EmptyString.

(** A character the encoder leaves as it is: ' ' to '~' ([ESCAPE_ASCII]
    matches everything else, and the quote and the backslash). *)
Definition printable (c : ascii) : bool :=
  let n := N_of_ascii c in (N.leb 32 n && N.leb n 126)%bool.

Definition hex_digit (n : N) : ascii :=
  if N.ltb n 10 then ascii_of_N (48 + n) else ascii_of_N (87 + n).

(** [ESCAPE_DCT] and the fallback of [py_encode_basestring_ascii]. *)
Definition escape_char (c : ascii) : string :=
  let n := N_of_ascii c in
  if N.eqb n 34 then String backslash_char (String quote_char EmptyString)
  else if N.eqb n 92 then String backslash_char (String backslash_char EmptyString)
  else if N.eqb n 10 then String backslash_char "n"
  else if N.eqb n 13 then String backslash_char "r"
  else if N.eqb n 9 then String backslash_char "t"
  else if N.eqb n 8 then String backslash_char "b"
  else if N.eqb n 12 then String backslash_char "f"
  else if printable c then String c EmptyString
  else String backslash_char
         ("u00" +:+ String (hex_digit (N.div n 16))
                      (String (hex_digit (N.modulo n 16)) EmptyString)).

Fixpoint escape_string (s : string) : string :=
  match s with
  | EmptyString => EmptyString
  | String c s' => escape_char c +:+ escape_string s'
  end.

Definition encode_basestring_ascii (s : string) : string :=
  String quote_char (escape_string s +:+ String quote_char EmptyString).

(** [sep.join(parts)]. *)
Fixpoint join (sep : string) (parts : list string) : string :=
  match parts with
  | [] => EmptyString
  | [p] => p
  | p :: rest => p +:+ sep +:+ join sep rest
  end.

Fixpoint dumps (v : json) : string :=
  match v with
  | JNull => "null"
  | JBool true => "true"
  | JBool false => "false"
  | JInt n => NilZero.string_of_int (Z.to_int n)
  | JStr s => encode_basestring_ascii s
  | JList items => "[" +:+ join ", " (List.map dumps items) +:+ "]"
  | JDict fields =>
      "{" +:+ join ", " (List.map (fun kv => encode_basestring_ascii (fst kv)
                                             +:+ ": " +:+ dumps (snd kv)) fields)
          +:+ "}"
  end.

(** ** Transforms, results and exceptions *)

(** What a call [map_func(item)] does: it returns a value ([JNull] is None)
    or raises an [Exception], here with its message.  These are the two
    ways out that the try blocks of the mappers tell apart. *)
Inductive map_outcome : Type :=
| Returns (v : json)
| Raises (msg : string).

(** What the mappers hand back to their caller. *)
Inductive pyval : Type :=
| PyNone
| PyTuple2 (fst_item snd_item : Z).

(** The exceptions the mappers raise themselves. *)
Inductive pyexn : Type :=
| ValueError_terminating (error_lines : Z)  (* jsonl_utils.py, line 61 *)
| Exception_too_many_errors                 (* jsonl_utils_parallel.py, line 117 *)
| ValueError_min_empty.                     (* min() of an empty list, line 118 *)

Inductive outcome : Type :=
| Return (v : pyval)
| Raise (e : pyexn).

(** ** Files *)

(** [open(path, "w")]: the file is created or truncated. *)
Definition open_w (path : string) (fs : gmap string string) : gmap string string :=
  <[path := EmptyString]> fs.

(** [open(path, "a")]: the file is created when missing, and kept otherwise. *)
Definition open_a (path : string) (fs : gmap string string) : gmap string string :=
  match fs !! path with
  | Some _ => fs
  | None => <[path := EmptyString]> fs
  end.

(** Closing a file object flushes the text written through it to the end of
    its file.  Exact as long as the destination and the error file are
    different files, which is how the mappers are called. *)
Definition close_file (path : string) (written : string) (fs : gmap string string)
  : gmap string string :=
  <[path := default EmptyString (fs !! path) +:+ written]> fs.

(** Closing the error sink: a path gets the text appended, a temporary file
    is deleted with its text. *)
Definition close_error_file (error_file_path : option string) (written : string)
    (fs : gmap string string) : gmap string string :=
  match error_file_path with
  | Some p => close_file p written fs
  | None => fs
  end.

(** What one run leaves behind: its result, the text it wrote through the
    destination and the error file objects, and the file system after all
    files are closed. *)
Record run : Type := {
  result_of : outcome;
  out_written : string;
  err_written : string;
  files_after : gmap string string
}.

(** ** The sequential mapper, [jsonl_utils.py] *)

Module jsonl_utils.

(** The nested [get_error_file] of [line_map]: a path opens that file for
    appending; without one the sink is an anonymous temporary file, which
    never shows in the file system. *)
Definition get_error_file (error_file_path : option string) (fs : gmap string string)
  : gmap string string :=
  match error_file_path with
  | Some p => open_a p fs
  | None => fs
  end.

Record loop_state : Type := {
  successful_lines : Z;
  error_lines : Z;
  current_line : Z;
  out_file : string;
  err_file : string
}.

Definition loop_start : loop_state :=
  {| successful_lines := 0; error_lines := 0; current_line := 0;
     out_file := EmptyString; err_file := EmptyString |}.

(** The try/except of lines 44-58 for one record [nxt]. *)
Definition process_line (map_func : json -> map_outcome) (nxt : json) (st : loop_state)
  : loop_state :=
  match map_func nxt with
  | Returns nxt_output =>
      {| successful_lines := successful_lines st + 1;
         error_lines := error_lines st;
         current_line := current_line st + 1;
         out_file := match nxt_output with
                     | JNull => out_file st
                     | _ => (out_file st +:+ dumps nxt_output) +:+ newline
                     end;
         err_file := err_file st |}
  | Raises _ =>
      {| successful_lines := successful_lines st;
         error_lines := error_lines st + 1;
         current_line := current_line st + 1;
         out_file := out_file st;
         err_file := err_file st +:+ dumps nxt |}
  end.

(** The for loop of lines 42-61; [Some e] when line 61 raises. *)
Fixpoint line_map_loop (map_func : json -> map_outcome) (max_errors : Z)
    (in_file : list json) (st : loop_state) : loop_state * option pyexn :=
  match in_file with
  | [] => (st, None)
  | nxt :: rest =>
      let st' := process_line map_func nxt st in
      if (0 <? max_errors) && (max_errors <? error_lines st')
      then (st', Some (ValueError_terminating (error_lines st')))
      else line_map_loop map_func max_errors rest st'
  end.

(** [line_map]; [source] is what iterating
    [JSONLReader(source_file, source_encoding)] yields, the reader being
    taken by the records it produces.  The with-blocks close the files on
    both ways out, the error file first. *)
Definition line_map (map_func : json -> map_outcome) (source : list json)
    (dest_file : string) (error_file : option string) (max_errors : Z)
    (fs : gmap string string) : run :=
  let fs := get_error_file error_file (open_w dest_file fs) in
  let '(st, raised) := line_map_loop map_func max_errors source loop_start in
  {| result_of := match raised with
                  | Some e => Raise e
                  | None => Return (PyTuple2 (successful_lines st) (error_lines st))
                  end;
     out_written := out_file st;
     err_written := err_file st;
     files_after := close_file dest_file (out_file st)
                      (close_error_file error_file (err_file st) fs) |}.

(** What a call [reducer(nxt)] does to the state the reducer keeps (it
    returns nothing): it leaves a new state, or raises, leaving the state as
    far as it got. *)
Inductive reducer_outcome (S : Type) : Type :=
| Reduced (s : S)
| ReducerRaises (s : S) (msg : string).
Arguments Reduced {S} s.
Arguments ReducerRaises {S} s msg.

(** The for loop of [line_reduce], lines 78-82: [current_line] is counted up
    before the call, and nothing catches what the reducer raises. *)
Fixpoint line_reduce_loop {S : Type} (reducer : json -> S -> reducer_outcome S)
    (in_file : list json) (current_line : Z) (s : S) : S * Z * option string :=
  match in_file with
  | [] => (s, current_line, None)
  | nxt :: rest =>
      let current_line := current_line + 1 in
      match reducer nxt s with
      | Reduced s' => line_reduce_loop reducer rest current_line s'
      | ReducerRaises s' msg => (s', current_line, Some msg)
      end
  end.

(** [line_reduce]: the reducer's state after the run, the line counter, and
    the message of the exception that ended the run, if one did ([None]:
    the function returned). *)
Definition line_reduce {S : Type} (reducer : json -> S -> reducer_outcome S)
    (source : list json) (s : S) : S * Z * option string :=
  line_reduce_loop reducer source 0 s.

End jsonl_utils.

(** ** The parallel mapper, [jsonl_utils_parallel.py] *)

Module jsonl_utils_parallel.

Inductive ItemState : Type :=
| Success
| Failure.

Record MapResult : Type := {
  state : ItemState;
  time : float;
  result : json
}.

(** [MapResult()]: the dataclass defaults. *)
Definition MapResult_default : MapResult :=
  {| state := Success; time := 0%float; result := JNull |}.

(** [_map_wrapper(item, map_func=map_func)]; [start] and [stop] are the two
    readings of [time.time()]. *)
Definition _map_wrapper (item : json) (map_func : json -> map_outcome)
    (start stop : float) : MapResult :=
  let r := MapResult_default in
  let r := match map_func item with
           | Returns v => {| state := Success; time := time r; result := v |}
           | Raises _ => {| state := Failure; time := time r; result := item |}
           end in
  {| state := state r; time := PrimFloat.sub stop start; result := result r |}.

Definition _get_error_file (error_file_path : option string) (fs : gmap string string)
  : gmap string string :=
  match error_file_path with
  | Some p => open_a p fs
  | None => fs
  end.

Record loop_state : Type := {
  n_errors : Z;
  all_times : list float;
  out_file : string;
  err_file : string
}.

Definition loop_start : loop_state :=
  {| n_errors := 0; all_times := []; out_file := EmptyString; err_file := EmptyString |}.

(** Lines 102-114 for one result [r], up to the threshold test. *)
Definition consume (r : MapResult) (st : loop_state) : loop_state :=
  match state r with
  | Success =>
      {| n_errors := n_errors st;
         all_times := all_times st ++ [time r];
         out_file := match result r with
                     | JNull => out_file st
                     | _ => (out_file st +:+ dumps (result r)) +:+ newline
                     end;
         err_file := err_file st |}
  | Failure =>
      {| n_errors := n_errors st + 1;
         all_times := all_times st ++ [time r];
         out_file := out_file st;
         err_file := (err_file st +:+ dumps (result r)) +:+ newline |}
  end.

(** The for loop of lines 101-117 over the results as the generator yields
    them; [Some e] when line 117 raises. *)
Fixpoint collect (n_errors_max : Z) (results : list MapResult) (st : loop_state)
  : loop_state * option pyexn :=
  match results with
  | [] => (st, None)
  | r :: rest =>
      let st' := consume r st in
      match state r with
      | Failure =>
          if n_errors_max <? n_errors st'
          then (st', Some Exception_too_many_errors)
          else collect n_errors_max rest st'
      | Success => collect n_errors_max rest st'
      end
  end.

(** Lines 118-120: [min], [sum]/[len] and [max] of the times are only
    logged, but [min] of an empty list raises ValueError. *)
Definition log_times (all_times : list float) : option pyexn :=
  match all_times with
  | [] => Some ValueError_min_empty
  | _ :: _ => None
  end.

(** Lines 93-121 from the point where the results arrive: [results] is the
    sequence the [joblib.Parallel] generator yields.  The log lines come
    after the with-blocks, so the files are closed by then. *)
Definition line_map_from_results (results : list MapResult) (dest_file : string)
    (error_file : option string) (n_errors_max : Z) (fs : gmap string string) : run :=
  let fs := _get_error_file error_file (open_w dest_file fs) in
  let '(st, raised) := collect n_errors_max results loop_start in
  {| result_of := match raised with
                  | Some e => Raise e
                  | None => match log_times (all_times st) with
                            | Some e => Raise e
                            | None => Return PyNone
                            end
                  end;
     out_written := out_file st;
     err_written := err_file st;
     files_after := close_file dest_file (out_file st)
                      (close_error_file error_file (err_file st) fs) |}.

(** The jobs [joblib.delayed(actual_map_func)(x) for x in jsonl_src], in the
    order of the source; [clock i] is the pair of clock readings around the
    transform of the record at position [i]. *)
Definition delayed_results (map_func : json -> map_outcome) (clock : nat -> float * float)
    (source : list json) : list MapResult :=
  imap (fun i item => _map_wrapper item map_func (fst (clock i)) (snd (clock i))) source.

(** [line_map_parallel].  With [return_as="generator"] joblib yields the
    results in the order the jobs were submitted, whatever [n_worker_tasks]
    is; the function has no return statement. *)
Definition line_map_parallel (map_func : json -> map_outcome) (source : list json)
    (dest_file : string) (n_worker_tasks : Z) (error_file : option string)
    (n_errors_max : Z) (clock : nat -> float * float) (fs : gmap string string) : run :=
  line_map_from_results (delayed_results map_func clock source)
    dest_file error_file n_errors_max fs.

End jsonl_utils_parallel.

(** ** The command line, [promptbase/__main__.py] and [bigbench/bigbench.py] *)

(** What a run does that can be seen from outside: a line printed, the
    subjects printed, or a call into a module that is not among these
    sources, with its argument when it has one.  These calls are taken to
    return. *)
Inductive event : Type :=
| Printed (text : string)
| PrintedSubjects
| Called (function : string) (argument : option string).

Module bigbench.

(** [generate(subject)].  [BIGBENCH_SUBJECTS] is defined in
    [promptbase/bigbench/consts.py]; it is taken as a parameter, the
    collection of the subject names. *)
Definition generate (BIGBENCH_SUBJECTS : list string) (subject : string) : list event :=
  if negb (String.eqb subject "all")
     && negb (existsb (String.eqb subject) BIGBENCH_SUBJECTS)
  then [Printed ("Invalid subject: " +:+ subject)]
  else [Printed ("Running BigBench generation for subject " +:+ subject);
        Called "bigbench_cot.process_cot" (Some subject);
        Called "bigbench_answer.process_answers" (Some subject)].

(** [evaluate()]. *)
Definition evaluate : list event := [Called "bigbench_score.score" None].

End bigbench.

Module promptbase_main.


(** The namespace [parse_arguments] returns: [subject] is None when the
    option is not given, [list_subjects] is the store_true flag. *)
Record arguments : Type := {
  dataset : string;
  subject : option string;
  list_subjects : bool
}.

(** [main()] from the parsed arguments on: what it does, and the message of
    the ValueError it raises, if it does. *)
Definition main (BIGBENCH_SUBJECTS : list string) (args : arguments)
  : list event * option string :=
  if list_subjects args then
    if String.eqb (dataset args) "bigbench" then ([PrintedSubjects], None)
    else if String.eqb (dataset args) "mmlu" then ([], None)
    else ([Printed ("Dataset " +:+ dataset args +:+ " does not have subjects")], None)
  else if String.eqb (dataset args) "gsm8k" then
    ([Called "gsm8k.generate" None; Called "gsm8k.evaluate" None], None)
  else if String.eqb (dataset args) "humaneval" then
    ([Called "humaneval.generate" None; Called "humaneval.evaluate" None], None)
  else if String.eqb (dataset args) "math" then
    ([Called "math.generate" None; Called "math.evaluate" None], None)
  else if String.eqb (dataset args) "drop" then
    ([Called "drop.generate" None; Called "drop.evaluate" None], None)
  else if String.eqb (dataset args) "bigbench" then
    let subject := match subject args with
                   | None => "all"
                   | Some EmptyString => "all"
                   | Some given => given
                   end in
    (bigbench.generate BIGBENCH_SUBJECTS subject ++ bigbench.evaluate, None)
  else if String.eqb (dataset args) "mmlu" then
    ([Called "mmlu.generate" (subject args)], None)
  else ([], Some ("Bad dataset: " +:+ dataset args)).

End promptbase_main.

(** An event that runs a generation or an evaluation. *)
Definition is_call (e : event) : bool :=
  match e with
  | Called _ _ => true
  | _ => false
  end.

(** ** The scenario of the specification *)

Fixpoint dict_get (key : string) (fields : list (string * json)) : option json :=
  match fields with
  | [] => None
  | (k, v) :: rest => if String.eqb k key then Some v else dict_get key rest
  end.

Fixpoint dict_set (key : string) (v : json) (fields : list (string * json))
  : list (string * json) :=
  match fields with
  | [] => [(key, v)]
  | (k, w) :: rest =>
      if String.eqb k key then (k, v) :: rest else (k, w) :: dict_set key v rest
  end.

(** The transform of the scenario: double field a, fail if it is not a number. *)
Definition double_a (item : json) : map_outcome :=
  match item with
  | JDict fields =>
      match dict_get "a" fields with
      | Some (JInt n) => Returns (JDict (dict_set "a" (JInt (2 * n)) fields))
      | Some _ => Raises "field a is not numeric"
      | None => Raises "no field a"
      end
  | _ => Raises "not an object"
  end.

(** The three records [{"a": 1}], [{"a": 2}], [{"a": "bad"}]. *)
Definition scenario_source : list json :=
  [JDict [("a", JInt 1)]; JDict [("a", JInt 2)]; JDict [("a", JStr "bad")]].

(** ** Lines of a text *)

(** The text made of the given lines, each followed by the line terminator. *)
Fixpoint unlines (ls : list string) : string :=
  match ls with
  | [] => EmptyString
  | l :: rest => (l +:+ newline) +:+ unlines rest
  end.

Fixpoint string_chars (s : string) : list ascii :=
  match s with
  | EmptyString => []
  | String c s' => c :: string_chars s'
  end.

(** A text that holds no line terminator. *)
Definition one_line (s : string) : Prop := newline_char ∉ string_chars s.

(** A text made of characters the encoder leaves as they are. *)
Definition all_printable (s : string) : Prop :=
  Forall (fun c => printable c = true) (string_chars s).

(** The number of line terminators in a text. *)
Fixpoint line_count (s : string) : nat :=
  match s with
  | EmptyString => 0%nat
  | String c s' => ((if Ascii.eqb c newline_char then 1 else 0) + line_count s')%nat
  end.

(** The texts of a list, one after the other. *)
Fixpoint concat_text (parts : list string) : string :=
  match parts with
  | [] => EmptyString
  | p :: rest => p +:+ concat_text rest
  end.

(** ** Vocabulary for the statements *)

(** The transform raises on the record. *)
Definition fails (map_func : json -> map_outcome) (item : json) : bool :=
  match map_func item with
  | Raises _ => true
  | Returns _ => false
  end.

(** What a transform returns when it returns something other than None. *)
Definition output_of (map_func : json -> map_outcome) (item : json) : option json :=
  match map_func item with
  | Returns JNull => None
  | Returns v => Some v
  | Raises _ => None
  end.

(** The non-null results over the records, in their order. *)
Definition outputs (map_func : json -> map_outcome) (source : list json) : list json :=
  omap (output_of map_func) source.

(** The records on which the transform raises, in their order. *)
Definition rejected (map_func : json -> map_outcome) (source : list json) : list json :=
  List.filter (fails map_func) source.

(** The records on which the transform returns, in their order. *)
Definition accepted (map_func : json -> map_outcome) (source : list json) : list json :=
  List.filter (fun item => negb (fails map_func item)) source.

(** How many records the transform raises on, and how many it returns on. *)
Definition failures (map_func : json -> map_outcome) (source : list json) : Z :=
  Z.of_nat (length (rejected map_func source)).

Definition successes (map_func : json -> map_outcome) (source : list json) : Z :=
  Z.of_nat (length (accepted map_func source)).

(** The loop body of [line_map] over some records, the threshold test left
    out: the state the loop is in once it has consumed them. *)
Definition process_all (map_func : json -> map_outcome) (consumed : list json)
    (st : jsonl_utils.loop_state) : jsonl_utils.loop_state :=
  fold_left (fun st nxt => jsonl_utils.process_line map_func nxt st) consumed st.

(** The loop body of [line_map_parallel] over some results, the threshold
    test left out. *)
Definition consume_all (results : list jsonl_utils_parallel.MapResult)
    (st : jsonl_utils_parallel.loop_state) : jsonl_utils_parallel.loop_state :=
  fold_left (fun st r => jsonl_utils_parallel.consume r st) results st.

(** What a result sends to the destination, and what it sends to the error
    sink. *)
Definition written_of (r : jsonl_utils_parallel.MapResult) : option json :=
  match jsonl_utils_parallel.state r with
  | jsonl_utils_parallel.Success =>
      match jsonl_utils_parallel.result r with
      | JNull => None
      | v => Some v
      end
  | jsonl_utils_parallel.Failure => None
  end.

Definition diverted_of (r : jsonl_utils_parallel.MapResult) : option json :=
  match jsonl_utils_parallel.state r with
  | jsonl_utils_parallel.Success => None
  | jsonl_utils_parallel.Failure => Some (jsonl_utils_parallel.result r)
  end.

Definition written_results (results : list jsonl_utils_parallel.MapResult) : list json :=
  omap written_of results.

Definition diverted_results (results : list jsonl_utils_parallel.MapResult) : list json :=
  omap diverted_of results.

(** ** Reading records back: [json.loads] and [_JSONLFile] *)

(** What decoding a text gives: a value; a JSONDecodeError; or a text the
    decoder accepts at this point but whose value is outside this model (a
    number with a fraction or an exponent, NaN, Infinity, an escape for a
    code point above 255), of which the model says nothing. *)
Inductive decoded (A : Type) : Type :=
| Decoded (a : A)
| JSONDecodeError
| Unmodelled.
Arguments Decoded {A} a.
Arguments JSONDecodeError {A}.
Arguments Unmodelled {A}.

(** The decoder's WHITESPACE skipped: spaces, tabs, line feeds and carriage
    returns. *)
Fixpoint skip_whitespace (s : string) : string :=
  match s with
  | String c rest =>
      let n := N_of_ascii c in
      if (N.eqb n 32 || N.eqb n 9 || N.eqb n 10 || N.eqb n 13)%bool
      then skip_whitespace rest else s
  | EmptyString => EmptyString
  end.

Fixpoint starts_with (word s : string) : option string :=
  match word, s with
  | EmptyString, _ => Some s
  | String w word', String c rest => if Ascii.eqb w c then starts_with word' rest else None
  | String _ _, EmptyString => None
  end.

Definition hex_value (c : ascii) : option N :=
  let n := N_of_ascii c in
  if (N.leb 48 n && N.leb n 57)%bool then Some (n - 48)%N
  else if (N.leb 97 n && N.leb n 102)%bool then Some (n - 87)%N
  else if (N.leb 65 n && N.leb n 70)%bool then Some (n - 55)%N
  else None.

(** The BACKSLASH table of the decoder. *)
Definition unescape (c : ascii) : option ascii :=
  let n := N_of_ascii c in
  if N.eqb n 34 then Some quote_char
  else if N.eqb n 92 then Some backslash_char
  else if N.eqb n 47 then Some (ascii_of_N 47)
  else if N.eqb n 98 then Some (ascii_of_N 8)
  else if N.eqb n 102 then Some (ascii_of_N 12)
  else if N.eqb n 110 then Some (ascii_of_N 10)
  else if N.eqb n 114 then Some (ascii_of_N 13)
  else if N.eqb n 116 then Some (ascii_of_N 9)
  else None.

Definition cons_char (c : ascii) (r : decoded (string * string)) : decoded (string * string) :=
  match r with
  | Decoded (s, rest) => Decoded (String c s, rest)
  | JSONDecodeError => JSONDecodeError
  | Unmodelled => Unmodelled
  end.

(** [scanstring] in strict mode, from just after the opening quote: the
    string and the text after its closing quote. *)
Fixpoint scanstring (s : string) : decoded (string * string) :=
  match s with
  | EmptyString => JSONDecodeError
  | String c rest =>
      let n := N_of_ascii c in
      if N.eqb n 34 then Decoded (EmptyString, rest)
      else if N.eqb n 92 then
        match rest with
        | EmptyString => JSONDecodeError
        | String esc rest1 =>
            if N.eqb (N_of_ascii esc) 117 then
              match rest1 with
              | String h1 (String h2 (String h3 (String h4 rest2))) =>
                  match hex_value h1, hex_value h2, hex_value h3, hex_value h4 with
                  | Some x1, Some x2, Some x3, Some x4 =>
                      if (N.eqb x1 0 && N.eqb x2 0)%bool
                      then cons_char (ascii_of_N (16 * x3 + x4)) (scanstring rest2)
                      else Unmodelled
                  | _, _, _, _ => JSONDecodeError
                  end
              | _ => JSONDecodeError
              end
            else
              match unescape esc with
              | Some ch => cons_char ch (scanstring rest1)
              | None => JSONDecodeError
              end
        end
      else if N.ltb n 32 then JSONDecodeError
      else cons_char c (scanstring rest)
  end.

Definition digit_of (c : ascii) : option (Decimal.uint -> Decimal.uint) :=
  let n := N_of_ascii c in
  if N.eqb n 48 then Some Decimal.D0
  else if N.eqb n 49 then Some Decimal.D1
  else if N.eqb n 50 then Some Decimal.D2
  else if N.eqb n 51 then Some Decimal.D3
  else if N.eqb n 52 then Some Decimal.D4
  else if N.eqb n 53 then Some Decimal.D5
  else if N.eqb n 54 then Some Decimal.D6
  else if N.eqb n 55 then Some Decimal.D7
  else if N.eqb n 56 then Some Decimal.D8
  else if N.eqb n 57 then Some Decimal.D9
  else None.

Definition is_digit (c : ascii) : bool :=
  match digit_of c with Some _ => true | None => false end.

(** The longest run of digits at the head of a text, and what follows it. *)
Fixpoint scan_digits (s : string) : Decimal.uint * string :=
  match s with
  | String c rest =>
      match digit_of c with
      | Some d => let '(u, rest') := scan_digits rest in (d u, rest')
      | None => (Decimal.Nil, s)
      end
  | EmptyString => (Decimal.Nil, EmptyString)
  end.

(** The integer part of NUMBER_RE without its sign: a single 0, or a digit
    from 1 to 9 and all the digits that follow it. *)
Definition scan_integer (s : string) : option (Decimal.uint * string) :=
  match s with
  | String c rest =>
      if N.eqb (N_of_ascii c) 48 then Some (Decimal.D0 Decimal.Nil, rest)
      else if is_digit c then Some (scan_digits s)
      else None
  | EmptyString => None
  end.

(** Whether the fraction (a dot and a digit) or the exponent (e or E, an
    optional sign, a digit) of NUMBER_RE matches at the head of a text: the
    number is then a float. *)
Definition starts_float_part (s : string) : bool :=
  match s with
  | String c (String d rest) =>
      let n := N_of_ascii c in
      if N.eqb n 46 then is_digit d
      else if (N.eqb n 101 || N.eqb n 69)%bool then
        (is_digit d
         || ((N.eqb (N_of_ascii d) 43 || N.eqb (N_of_ascii d) 45)
             && match rest with String d' _ => is_digit d' | EmptyString => false end))%bool
      else false
  | _ => false
  end.

(** The number branch of [scan_once], with the constants it tries after. *)
Definition scan_number (s : string) : decoded (json * string) :=
  let '(negative, body) :=
    match s with
    | String c rest => if N.eqb (N_of_ascii c) 45 then (true, rest) else (false, s)
    | EmptyString => (false, s)
    end in
  match scan_integer body with
  | Some (u, rest) =>
      if starts_float_part rest then Unmodelled
      else Decoded (JInt (if negative then - Z.of_uint u else Z.of_uint u), rest)
  | None =>
      match starts_with "NaN" s, starts_with "Infinity" s, starts_with "-Infinity" s with
      | None, None, None => JSONDecodeError
      | _, _, _ => Unmodelled
      end
  end.

(** [scan_once] with [JSONArray] and [JSONObject].  [fuel] bounds the number
    of nested calls; [loads] gives enough of it for the text. *)
Fixpoint scan_once (fuel : nat) (s : string) : decoded (json * string) :=
  match fuel with
  | O => Unmodelled
  | S fuel =>
      match s with
      | EmptyString => JSONDecodeError
      | String c rest =>
          let n := N_of_ascii c in
          if N.eqb n 34 then
            match scanstring rest with
            | Decoded (str, rest') => Decoded (JStr str, rest')
            | JSONDecodeError => JSONDecodeError
            | Unmodelled => Unmodelled
            end
          else if N.eqb n 123 then
            match skip_whitespace rest with
            | String c' rest' =>
                if N.eqb (N_of_ascii c') 125 then Decoded (JDict [], rest')
                else scan_members fuel (String c' rest') []
            | EmptyString => JSONDecodeError
            end
          else if N.eqb n 91 then
            match skip_whitespace rest with
            | String c' rest' =>
                if N.eqb (N_of_ascii c') 93 then Decoded (JList [], rest')
                else scan_items fuel (String c' rest') []
            | EmptyString => JSONDecodeError
            end
          else
            match starts_with "null" s, starts_with "true" s, starts_with "false" s with
            | Some rest', _, _ => Decoded (JNull, rest')
            | None, Some rest', _ => Decoded (JBool true, rest')
            | None, None, Some rest' => Decoded (JBool false, rest')
            | None, None, None => scan_number s
            end
      end
  end
with scan_items (fuel : nat) (s : string) (seen : list json) : decoded (json * string) :=
  match fuel with
  | O => Unmodelled
  | S fuel =>
      match scan_once fuel s with
      | Decoded (v, rest) =>
          match skip_whitespace rest with
          | String c rest' =>
              let n := N_of_ascii c in
              if N.eqb n 93 then Decoded (JList (seen ++ [v]), rest')
              else if N.eqb n 44 then scan_items fuel (skip_whitespace rest') (seen ++ [v])
              else JSONDecodeError
          | EmptyString => JSONDecodeError
          end
      | JSONDecodeError => JSONDecodeError
      | Unmodelled => Unmodelled
      end
  end
with scan_members (fuel : nat) (s : string) (seen : list (string * json))
  : decoded (json * string) :=
  match fuel with
  | O => Unmodelled
  | S fuel =>
      match s with
      | String q rest =>
          if N.eqb (N_of_ascii q) 34 then
            match scanstring rest with
            | Decoded (key, rest1) =>
                match skip_whitespace rest1 with
                | String colon rest2 =>
                    if N.eqb (N_of_ascii colon) 58 then
                      match scan_once fuel (skip_whitespace rest2) with
                      | Decoded (v, rest3) =>
                          match skip_whitespace rest3 with
                          | String c rest4 =>
                              let n := N_of_ascii c in
                              if N.eqb n 125
                              then Decoded (JDict (dict_set key v seen), rest4)
                              else if N.eqb n 44
                              then scan_members fuel (skip_whitespace rest4)
                                     (dict_set key v seen)
                              else JSONDecodeError
                          | EmptyString => JSONDecodeError
                          end
                      | JSONDecodeError => JSONDecodeError
                      | Unmodelled => Unmodelled
                      end
                    else JSONDecodeError
                | EmptyString => JSONDecodeError
                end
            | JSONDecodeError => JSONDecodeError
            | Unmodelled => Unmodelled
            end
          else JSONDecodeError
      | EmptyString => JSONDecodeError
      end
  end.

Fixpoint text_length (s : string) : nat :=
  match s with
  | EmptyString => 0%nat
  | String _ rest => S (text_length rest)
  end.

(** [json.loads(s)]: the value, with nothing but whitespace around it. *)
Definition loads (s : string) : decoded json :=
  let s := skip_whitespace s in
  match scan_once (2 * text_length s + 2) s with
  | Decoded (v, rest) =>
      match skip_whitespace rest with
      | EmptyString => Decoded v
      | String _ _ => JSONDecodeError
      end
  | JSONDecodeError => JSONDecodeError
  | Unmodelled => Unmodelled
  end.

(** A value as [json.loads] can build it: no dictionary holds a key
    twice. *)
Fixpoint unique_keys (keys : list string) : bool :=
  match keys with
  | [] => true
  | k :: rest => negb (existsb (String.eqb k) rest) && unique_keys rest
  end.

Fixpoint well_formed (v : json) : bool :=
  match v with
  | JList items => forallb well_formed items
  | JDict fields =>
      unique_keys (List.map fst fields)
      && forallb (fun kv => well_formed (snd kv)) fields
  | _ => true
  end.

(** A text at whose head a number ends: it does not go on with a digit, a
    dot or an exponent mark. *)
Definition ends_number (rest : string) : bool :=
  match rest with
  | EmptyString => true
  | String c _ =>
      let n := N_of_ascii c in
      (negb (is_digit c) && negb (N.eqb n 46) && negb (N.eqb n 101) && negb (N.eqb n 69))%bool
  end.

(** Where a value may be followed by any text: everywhere but after a
    number. *)
Definition may_precede (v : json) (rest : string) : bool :=
  match v with
  | JInt _ => ends_number rest
  | _ => true
  end.

(** The characters a text written by [json.dumps] can begin with. *)
Definition value_head (c : ascii) : bool :=
  let n := N_of_ascii c in
  (is_digit c || N.eqb n 45 || N.eqb n 34 || N.eqb n 91 || N.eqb n 123
   || N.eqb n 110 || N.eqb n 116 || N.eqb n 102)%bool.

(** The text of one key and its value inside a dictionary. *)
Definition member_text (kv : string * json) : string :=
  encode_basestring_ascii (fst kv) +:+ ": " +:+ dumps (snd kv).

(** The decoder reads the value back from its text, with what follows the
    text left over, given fuel for the length of the text. *)
Definition reads_back (v : json) : Prop :=
  forall fuel rest,
    (text_length (dumps v) <= fuel)%nat ->
    may_precede v rest = true ->
    scan_once fuel (dumps v +:+ rest) = Decoded (v, rest).

(** ** Lines of a file and [_JSONLFile] *)

Definition carriage_return_char : ascii := ascii_of_N 13.

(** Iterating a file opened in text mode with universal newlines: a line
    ends at a line feed, at a carriage return, or at the two in a row, and
    is handed over with a single line feed at its end; a last line without
    terminator is handed over as it is.  [line] is the line read so far. *)
Fixpoint read_lines (line : string) (text : string) : list string :=
  match text with
  | EmptyString =>
      match line with
      | EmptyString => []
      | String _ _ => [line]
      end
  | String c rest =>
      if Ascii.eqb c newline_char then (line +:+ newline) :: read_lines EmptyString rest
      else if Ascii.eqb c carriage_return_char then
        match rest with
        | String c' rest' =>
            if Ascii.eqb c' newline_char
            then (line +:+ newline) :: read_lines EmptyString rest'
            else (line +:+ newline) :: read_lines EmptyString rest
        | EmptyString => [line +:+ newline]
        end
      else read_lines (line +:+ String c EmptyString) rest
  end.

Module jsonl_file.

(** Iterating a [_JSONLFile] over the lines of its file: [__next__] decodes
    the next line.  The records handed over before the end of the file or
    before the first line that does not decode, and what ended the
    iteration: [Decoded tt] at the end of the file. *)
Fixpoint iterate (lines : list string) : list json * decoded unit :=
  match lines with
  | [] => ([], Decoded tt)
  | nxt_line :: rest =>
      match loads nxt_line with
      | Decoded result =>
          let '(records, ended) := iterate rest in (result :: records, ended)
      | JSONDecodeError => ([], JSONDecodeError)
      | Unmodelled => ([], Unmodelled)
      end
  end.


End jsonl_file.

(** * Properties *)

(** ** Texts *)

Lemma app_cons (c : ascii) (s t : string) : String c s +:+ t = String c (s +:+ t).
Proof. reflexivity. Qed.

Lemma app_empty_l (s : string) : EmptyString +:+ s = s.
Proof. reflexivity. Qed.

Lemma app_empty_r (s : string) : s +:+ EmptyString = s.
Proof. induction s as [|c s IH]; [reflexivity|]. now rewrite app_cons, IH. Qed.

Lemma app_text_assoc (s t u : string) : (s +:+ t) +:+ u = s +:+ (t +:+ u).
Proof. induction s as [|c s IH]; [reflexivity|]. now rewrite !app_cons, IH. Qed.

Lemma string_chars_app (s t : string) :
  string_chars (s +:+ t) = string_chars s ++ string_chars t.
Proof. induction s as [|c s IH]; [reflexivity|]. rewrite app_cons. simpl. now rewrite IH. Qed.

Lemma line_count_app (s t : string) :
  line_count (s +:+ t) = (line_count s + line_count t)%nat.
Proof.
  induction s as [|c s IH]; [reflexivity|].
  rewrite app_cons. simpl. rewrite IH. lia.
Qed.

Lemma all_printable_app (s t : string) :
  all_printable s -> all_printable t -> all_printable (s +:+ t).
Proof.
  unfold all_printable. intros Hs Ht. rewrite string_chars_app.
  apply Forall_app; split; assumption.
Qed.

Lemma all_printable_cons (c : ascii) (s : string) :
  printable c = true -> all_printable s -> all_printable (String c s).
Proof. intros Hc Hs. unfold all_printable. simpl. constructor; assumption. Qed.

Lemma all_printable_check (s : string) :
  forallb printable (string_chars s) = true -> all_printable s.
Proof.
  unfold all_printable. intros Hs. apply Forall_forall. intros c Hc.
  rewrite forallb_forall in Hs. apply Hs. apply list_elem_of_In. exact Hc.
Qed.

Lemma all_printable_one_line (s : string) : all_printable s -> one_line s.
Proof.
  unfold all_printable, one_line. intros Hs Hin.
  rewrite Forall_forall in Hs. specialize (Hs _ Hin). discriminate Hs.
Qed.

Lemma one_line_count (s : string) : one_line s -> line_count s = 0%nat.
Proof.
  unfold one_line. induction s as [|c s IH]; [reflexivity|].
  simpl. intros Hnot. rewrite not_elem_of_cons in Hnot. destruct Hnot as [Hc Hs].
  rewrite (IH Hs). destruct (Ascii.eqb_spec c newline_char) as [->|]; [congruence|reflexivity].
Qed.

Lemma line_count_unlines (ls : list string) :
  Forall one_line ls -> line_count (unlines ls) = length ls.
Proof.
  induction 1 as [|l ls Hl _ IH]; [reflexivity|].
  simpl unlines. rewrite !line_count_app, IH, (one_line_count l Hl). reflexivity.
Qed.

Lemma unlines_app (ls ms : list string) : unlines (ls ++ ms) = unlines ls +:+ unlines ms.
Proof.
  induction ls as [|l ls IH]; [reflexivity|].
  simpl. now rewrite IH, !app_text_assoc.
Qed.

Lemma concat_text_app (ls ms : list string) :
  concat_text (ls ++ ms) = concat_text ls +:+ concat_text ms.
Proof.
  induction ls as [|l ls IH]; [reflexivity|].
  simpl. now rewrite IH, app_text_assoc.
Qed.

Lemma concat_text_one_line (ls : list string) :
  Forall one_line ls -> one_line (concat_text ls).
Proof.
  unfold one_line. induction 1 as [|l ls Hl _ IH]; simpl.
  - apply not_elem_of_nil.
  - rewrite string_chars_app, elem_of_app. tauto.
Qed.

(** ** [json.dumps] writes one line *)

Lemma json_nested_ind (P : json -> Prop) :
  P JNull ->
  (forall b, P (JBool b)) ->
  (forall n, P (JInt n)) ->
  (forall s, P (JStr s)) ->
  (forall items, Forall P items -> P (JList items)) ->
  (forall fields, Forall (fun kv => P (snd kv)) fields -> P (JDict fields)) ->
  forall v, P v.
Proof.
  intros HNull HBool HInt HStr HList HDict.
  fix IH 1. intros [ | b | n | s | items | fields ].
  - exact HNull.
  - apply HBool.
  - apply HInt.
  - apply HStr.
  - apply HList. induction items as [|v items IHitems]; constructor.
    + apply IH.
    + exact IHitems.
  - apply HDict. induction fields as [|[k v] fields IHfields]; constructor.
    + apply IH.
    + exact IHfields.
Qed.

Lemma escape_char_printable (c : ascii) : all_printable (escape_char c).
Proof.
  destruct c as [[] [] [] [] [] [] [] []]; apply all_printable_check; reflexivity.
Qed.

Lemma escape_string_printable (s : string) : all_printable (escape_string s).
Proof.
  induction s as [|c s IH]; simpl.
  - constructor.
  - apply all_printable_app; [apply escape_char_printable | exact IH].
Qed.

Lemma encode_basestring_ascii_printable (s : string) :
  all_printable (encode_basestring_ascii s).
Proof.
  unfold encode_basestring_ascii.
  apply all_printable_cons; [reflexivity|].
  apply all_printable_app; [apply escape_string_printable|].
  apply all_printable_cons; [reflexivity | constructor].
Qed.

Lemma string_of_uint_printable (d : Decimal.uint) :
  all_printable (NilEmpty.string_of_uint d).
Proof.
  induction d; simpl; try (apply all_printable_cons; [reflexivity | assumption]).
  constructor.
Qed.

Lemma string_of_int_printable (n : Z) :
  all_printable (NilZero.string_of_int (Z.to_int n)).
Proof.
  assert (Hu : forall d, all_printable (NilZero.string_of_uint d)).
  { intros d. destruct d; try apply string_of_uint_printable.
    apply all_printable_cons; [reflexivity | constructor]. }
  destruct n; simpl.
  - apply all_printable_cons; [reflexivity | constructor].
  - apply Hu.
  - apply all_printable_cons; [reflexivity | apply Hu].
Qed.

Lemma join_printable (sep : string) (parts : list string) :
  all_printable sep -> Forall all_printable parts -> all_printable (join sep parts).
Proof.
  intros Hsep. induction 1 as [|p rest Hp Hrest IH]; simpl.
  - constructor.
  - destruct rest as [|q rest]; [exact Hp|].
    apply all_printable_app; [exact Hp|].
    apply all_printable_app; [exact Hsep | exact IH].
Qed.

Lemma dumps_printable (v : json) : all_printable (dumps v).
Proof.
  induction v as [ | b | n | s | items IH | fields IH ] using json_nested_ind.
  - apply all_printable_check; reflexivity.
  - destruct b; apply all_printable_check; reflexivity.
  - apply string_of_int_printable.
  - apply encode_basestring_ascii_printable.
  - simpl. apply all_printable_app; [apply all_printable_check; reflexivity|].
    apply all_printable_app; [|apply all_printable_check; reflexivity].
    apply join_printable; [apply all_printable_check; reflexivity|].
    induction IH; simpl; constructor; assumption.
  - simpl. apply all_printable_app; [apply all_printable_check; reflexivity|].
    apply all_printable_app; [|apply all_printable_check; reflexivity].
    apply join_printable; [apply all_printable_check; reflexivity|].
    induction IH as [|[k v] fields Hv _ IHf]; simpl; constructor; [|exact IHf].
    apply all_printable_app; [apply encode_basestring_ascii_printable|].
    apply all_printable_app; [apply all_printable_check; reflexivity | exact Hv].
Qed.

Lemma dumps_one_line (v : json) : one_line (dumps v).
Proof. apply all_printable_one_line, dumps_printable. Qed.

(** ** The loop of the sequential mapper *)

Section sequential_loop.
Import jsonl_utils.
Variable map_func : json -> map_outcome.

Lemma rejected_cons (item : json) (source : list json) :
  rejected map_func (item :: source) =
  if fails map_func item then item :: rejected map_func source
  else rejected map_func source.
Proof. reflexivity. Qed.

Lemma failures_cons (item : json) (source : list json) :
  failures map_func (item :: source) =
  (if fails map_func item then 1 else 0) + failures map_func source.
Proof.
  unfold failures. rewrite rejected_cons.
  destruct (fails map_func item); simpl length; lia.
Qed.

Lemma successes_cons (item : json) (source : list json) :
  successes map_func (item :: source) =
  (if fails map_func item then 0 else 1) + successes map_func source.
Proof.
  unfold successes, accepted. simpl List.filter.
  destruct (fails map_func item); simpl length; lia.
Qed.

Lemma failures_nonneg (source : list json) : 0 <= failures map_func source.
Proof. unfold failures. lia. Qed.


Lemma successes_failures (source : list json) :
  successes map_func source + failures map_func source = Z.of_nat (length source).
Proof.
  induction source as [|item source IH]; [reflexivity|].
  rewrite successes_cons, failures_cons. simpl length.
  destruct (fails map_func item); lia.
Qed.

Lemma outputs_cons (item : json) (source : list json) :
  outputs map_func (item :: source) =
  match output_of map_func item with
  | Some v => v :: outputs map_func source
  | None => outputs map_func source
  end.
Proof. reflexivity. Qed.

(** One turn of the loop body, field by field. *)
Lemma process_line_counts (nxt : json) (st : loop_state) :
  successful_lines (process_line map_func nxt st)
    = successful_lines st + (if fails map_func nxt then 0 else 1)
  /\ error_lines (process_line map_func nxt st)
    = error_lines st + (if fails map_func nxt then 1 else 0)
  /\ current_line (process_line map_func nxt st) = current_line st + 1.
Proof.
  unfold process_line, fails. destruct (map_func nxt); simpl; lia.
Qed.

Lemma process_line_out_file (nxt : json) (st : loop_state) :
  out_file (process_line map_func nxt st)
    = out_file st +:+ match output_of map_func nxt with
                      | Some v => dumps v +:+ newline
                      | None => EmptyString
                      end.
Proof.
  unfold process_line, output_of.
  destruct (map_func nxt) as [v|msg]; simpl.
  - destruct v; simpl; rewrite ?app_empty_r, ?app_text_assoc; reflexivity.
  - now rewrite app_empty_r.
Qed.

Lemma process_line_err_file (nxt : json) (st : loop_state) :
  err_file (process_line map_func nxt st)
    = err_file st +:+ (if fails map_func nxt then dumps nxt else EmptyString).
Proof.
  unfold process_line, fails.
  destruct (map_func nxt) as [v|msg]; simpl; [now rewrite app_empty_r | reflexivity].
Qed.

Lemma process_all_cons (nxt : json) (consumed : list json) (st : loop_state) :
  process_all map_func (nxt :: consumed) st
    = process_all map_func consumed (process_line map_func nxt st).
Proof. reflexivity. Qed.

Lemma process_all_snoc (consumed : list json) (nxt : json) (st : loop_state) :
  process_all map_func (consumed ++ [nxt]) st
    = process_line map_func nxt (process_all map_func consumed st).
Proof. unfold process_all. now rewrite fold_left_app. Qed.

(** The state after some records, field by field. *)
Lemma process_all_counts (consumed : list json) (st : loop_state) :
  successful_lines (process_all map_func consumed st)
    = successful_lines st + successes map_func consumed
  /\ error_lines (process_all map_func consumed st)
    = error_lines st + failures map_func consumed
  /\ current_line (process_all map_func consumed st)
    = current_line st + Z.of_nat (length consumed).
Proof.
  revert st. induction consumed as [|nxt consumed IH]; intros st.
  - unfold successes, failures. simpl. lia.
  - rewrite process_all_cons, successes_cons, failures_cons.
    destruct (IH (process_line map_func nxt st)) as (-> & -> & ->).
    destruct (process_line_counts nxt st) as (-> & -> & ->).
    simpl length. lia.
Qed.

Lemma process_all_out_file (consumed : list json) (st : loop_state) :
  out_file (process_all map_func consumed st)
    = out_file st +:+ unlines (List.map dumps (outputs map_func consumed)).
Proof.
  revert st. induction consumed as [|nxt consumed IH]; intros st.
  - simpl. now rewrite app_empty_r.
  - rewrite process_all_cons, IH, process_line_out_file, outputs_cons.
    destruct (output_of map_func nxt); simpl.
    + now rewrite !app_text_assoc.
    + now rewrite app_empty_r.
Qed.

Lemma process_all_err_file (consumed : list json) (st : loop_state) :
  err_file (process_all map_func consumed st)
    = err_file st +:+ concat_text (List.map dumps (rejected map_func consumed)).
Proof.
  revert st. induction consumed as [|nxt consumed IH]; intros st.
  - simpl. now rewrite app_empty_r.
  - rewrite process_all_cons, IH, process_line_err_file, rejected_cons.
    destruct (fails map_func nxt); simpl.
    + now rewrite !app_text_assoc.
    + now rewrite app_empty_r.
Qed.

(** The loop runs to the end of the source when the breaker is off or the
    failures stay within the bound. *)
Lemma line_map_loop_completes (max_errors : Z) (source : list json) (st : loop_state) :
  max_errors <= 0 \/ error_lines st + failures map_func source <= max_errors ->
  line_map_loop map_func max_errors source st = (process_all map_func source st, None).
Proof.
  revert st. induction source as [|nxt source IH]; intros st Hbound; [reflexivity|].
  simpl line_map_loop. rewrite process_all_cons.
  destruct (process_line_counts nxt st) as (_ & Herr & _).
  rewrite failures_cons in Hbound.
  pose proof (failures_nonneg source) as Hpos.
  assert (Hno : (0 <? max_errors) && (max_errors <? error_lines (process_line map_func nxt st)) = false).
  { rewrite andb_false_iff, !Z.ltb_ge. rewrite Herr.
    destruct Hbound as [Hoff|Hin]; [left; lia|right].
    destruct (fails map_func nxt); lia. }
  rewrite Hno. apply IH. rewrite Herr.
  destruct Hbound as [Hoff|Hin]; [left; exact Hoff|right].
  destruct (fails map_func nxt); lia.
Qed.

(** The loop stops at the record whose failure takes the count past the
    bound: the failure number [max_errors + 1]. *)
Lemma line_map_loop_aborts (max_errors : Z) (source : list json) (st : loop_state) :
  0 < max_errors ->
  error_lines st <= max_errors ->
  max_errors < error_lines st + failures map_func source ->
  exists consumed last rest,
    source = consumed ++ last :: rest
    /\ fails map_func last = true
    /\ error_lines st + failures map_func consumed = max_errors
    /\ line_map_loop map_func max_errors source st
       = (process_all map_func (consumed ++ [last]) st,
          Some (ValueError_terminating (max_errors + 1))).
Proof.
  intros Hon. revert st.
  induction source as [|nxt source IH]; intros st Hle Hgt.
  - unfold failures in Hgt. simpl in Hgt. lia.
  - simpl line_map_loop.
    destruct (process_line_counts nxt st) as (_ & Herr & _).
    rewrite failures_cons in Hgt.
    destruct (Z.ltb_spec max_errors (error_lines (process_line map_func nxt st)))
      as [Hover|Hunder].
    + assert (Hf : fails map_func nxt = true).
      { destruct (fails map_func nxt); [reflexivity|lia]. }
      rewrite Hf in Herr.
      exists [], nxt, source. repeat split; [exact Hf | unfold failures; simpl; lia |].
      replace (0 <? max_errors) with true by (symmetry; apply Z.ltb_lt; exact Hon).
      simpl. do 3 f_equal. lia.
    + replace (0 <? max_errors) with true by (symmetry; apply Z.ltb_lt; exact Hon).
      simpl andb.
      destruct (IH (process_line map_func nxt st)) as (consumed & last & rest & -> & Hf & Hcount & Hrun).
      * exact Hunder.
      * rewrite Herr. destruct (fails map_func nxt); lia.
      * exists (nxt :: consumed), last, rest. repeat split.
        -- exact Hf.
        -- rewrite failures_cons. rewrite Herr in Hcount. lia.
        -- rewrite Hrun. reflexivity.
Qed.

End sequential_loop.

(** ** The loop of the parallel mapper *)

Section parallel_loop.
Import jsonl_utils_parallel.

Lemma consume_n_errors (r : MapResult) (st : loop_state) :
  n_errors (consume r st)
    = n_errors st + match diverted_of r with Some _ => 1 | None => 0 end.
Proof. unfold consume, diverted_of. destruct (state r); simpl; lia. Qed.

Lemma consume_all_times (r : MapResult) (st : loop_state) :
  all_times (consume r st) = all_times st ++ [time r].
Proof. unfold consume. destruct (state r); reflexivity. Qed.

Lemma consume_out_file (r : MapResult) (st : loop_state) :
  out_file (consume r st)
    = out_file st +:+ match written_of r with
                      | Some v => dumps v +:+ newline
                      | None => EmptyString
                      end.
Proof.
  unfold consume, written_of. destruct (state r); simpl.
  - destruct (result r); simpl; rewrite ?app_empty_r, ?app_text_assoc; reflexivity.
  - now rewrite app_empty_r.
Qed.

Lemma consume_err_file (r : MapResult) (st : loop_state) :
  err_file (consume r st)
    = err_file st +:+ match diverted_of r with
                      | Some v => dumps v +:+ newline
                      | None => EmptyString
                      end.
Proof.
  unfold consume, diverted_of. destruct (state r); simpl.
  - now rewrite app_empty_r.
  - now rewrite app_text_assoc.
Qed.

Lemma consume_all_cons (r : MapResult) (results : list MapResult) (st : loop_state) :
  consume_all (r :: results) st = consume_all results (consume r st).
Proof. reflexivity. Qed.

Lemma diverted_results_cons (r : MapResult) (results : list MapResult) :
  diverted_results (r :: results) =
  match diverted_of r with
  | Some v => v :: diverted_results results
  | None => diverted_results results
  end.
Proof. reflexivity. Qed.

Lemma written_results_cons (r : MapResult) (results : list MapResult) :
  written_results (r :: results) =
  match written_of r with
  | Some v => v :: written_results results
  | None => written_results results
  end.
Proof. reflexivity. Qed.

Lemma consume_all_n_errors (results : list MapResult) (st : loop_state) :
  n_errors (consume_all results st)
    = n_errors st + Z.of_nat (length (diverted_results results)).
Proof.
  revert st. induction results as [|r results IH]; intros st.
  - simpl. lia.
  - rewrite consume_all_cons, IH, consume_n_errors, diverted_results_cons.
    destruct (diverted_of r); simpl length; lia.
Qed.

Lemma consume_all_all_times (results : list MapResult) (st : loop_state) :
  all_times (consume_all results st) = all_times st ++ List.map time results.
Proof.
  revert st. induction results as [|r results IH]; intros st.
  - simpl. now rewrite app_nil_r.
  - rewrite consume_all_cons, IH, consume_all_times. simpl.
    now rewrite <- app_assoc.
Qed.

Lemma consume_all_out_file (results : list MapResult) (st : loop_state) :
  out_file (consume_all results st)
    = out_file st +:+ unlines (List.map dumps (written_results results)).
Proof.
  revert st. induction results as [|r results IH]; intros st.
  - simpl. now rewrite app_empty_r.
  - rewrite consume_all_cons, IH, consume_out_file, written_results_cons.
    destruct (written_of r); simpl.
    + now rewrite !app_text_assoc.
    + now rewrite app_empty_r.
Qed.

Lemma consume_all_err_file (results : list MapResult) (st : loop_state) :
  err_file (consume_all results st)
    = err_file st +:+ unlines (List.map dumps (diverted_results results)).
Proof.
  revert st. induction results as [|r results IH]; intros st.
  - simpl. now rewrite app_empty_r.
  - rewrite consume_all_cons, IH, consume_err_file, diverted_results_cons.
    destruct (diverted_of r); simpl.
    + now rewrite !app_text_assoc.
    + now rewrite app_empty_r.
Qed.

(** The collector reaches the end of the results when no result is a
    failure or the failures stay within the bound. *)
Lemma collect_completes (n_errors_max : Z) (results : list MapResult) (st : loop_state) :
  diverted_results results = []
  \/ n_errors st + Z.of_nat (length (diverted_results results)) <= n_errors_max ->
  collect n_errors_max results st = (consume_all results st, None).
Proof.
  revert st. induction results as [|r results IH]; intros st Hbound; [reflexivity|].
  simpl collect. rewrite consume_all_cons.
  rewrite diverted_results_cons in Hbound.
  pose proof (consume_n_errors r st) as Herr.
  unfold diverted_of in Hbound, Herr.
  destruct (state r).
  - apply IH. rewrite Herr, Z.add_0_r. exact Hbound.
  - destruct Hbound as [Hnone|Hin]; [discriminate|].
    simpl length in Hin.
    replace (n_errors_max <? n_errors (consume r st)) with false
      by (symmetry; apply Z.ltb_ge; lia).
    apply IH. right. lia.
Qed.

(** The collector stops at the failure that takes the count past the
    bound. *)
Lemma collect_aborts (n_errors_max : Z) (results : list MapResult) (st : loop_state) :
  n_errors st <= n_errors_max ->
  n_errors_max < n_errors st + Z.of_nat (length (diverted_results results)) ->
  exists consumed last rest,
    results = consumed ++ last :: rest
    /\ state last = Failure
    /\ n_errors st + Z.of_nat (length (diverted_results consumed)) = n_errors_max
    /\ collect n_errors_max results st
       = (consume_all (consumed ++ [last]) st, Some Exception_too_many_errors).
Proof.
  revert st. induction results as [|r results IH]; intros st Hle Hgt.
  - simpl in Hgt. lia.
  - simpl collect.
    rewrite diverted_results_cons in Hgt.
    pose proof (consume_n_errors r st) as Herr.
    unfold diverted_of in Hgt, Herr.
    destruct (state r) eqn:Hstate.
    + destruct (IH (consume r st)) as (consumed & last & rest & -> & Hf & Hcount & Hrun).
      * lia.
      * lia.
      * exists (r :: consumed), last, rest. repeat split; [exact Hf | |exact Hrun].
        rewrite diverted_results_cons. unfold diverted_of. rewrite Hstate. lia.
    + simpl length in Hgt.
      destruct (Z.ltb_spec n_errors_max (n_errors (consume r st))) as [Hover|Hunder].
      * exists [], r, results. repeat split; [exact Hstate | simpl; lia].
      * destruct (IH (consume r st)) as (consumed & last & rest & -> & Hf & Hcount & Hrun).
        -- exact Hunder.
        -- lia.
        -- exists (r :: consumed), last, rest. repeat split; [exact Hf | |exact Hrun].
           rewrite diverted_results_cons. unfold diverted_of. rewrite Hstate.
           simpl length. lia.
Qed.

(** What the jobs send where, in terms of the source and the transform. *)
Lemma delayed_results_written (map_func : json -> map_outcome)
    (clock : nat -> float * float) (source : list json) :
  written_results (delayed_results map_func clock source) = outputs map_func source.
Proof.
  unfold delayed_results. revert clock.
  induction source as [|item source IH]; intros clock; [reflexivity|].
  rewrite imap_cons, written_results_cons, outputs_cons.
  change (imap _ source) with
    (imap (fun i item => _map_wrapper item map_func (fst (clock (S i))) (snd (clock (S i)))) source).
  rewrite (IH (fun i => clock (S i))).
  unfold written_of, output_of, _map_wrapper.
  destruct (map_func item) as [v|msg]; [destruct v|]; reflexivity.
Qed.

Lemma delayed_results_diverted (map_func : json -> map_outcome)
    (clock : nat -> float * float) (source : list json) :
  diverted_results (delayed_results map_func clock source) = rejected map_func source.
Proof.
  unfold delayed_results. revert clock.
  induction source as [|item source IH]; intros clock; [reflexivity|].
  rewrite imap_cons, diverted_results_cons, rejected_cons.
  change (imap _ source) with
    (imap (fun i item => _map_wrapper item map_func (fst (clock (S i))) (snd (clock (S i)))) source).
  rewrite (IH (fun i => clock (S i))).
  unfold diverted_of, fails, _map_wrapper.
  destruct (map_func item) as [v|msg]; reflexivity.
Qed.

Lemma delayed_results_length (map_func : json -> map_outcome)
    (clock : nat -> float * float) (source : list json) :
  length (delayed_results map_func clock source) = length source.
Proof. apply length_imap. Qed.

End parallel_loop.

(** ** Files *)

Lemma open_a_lookup (p q : string) (fs : gmap string string) :
  open_a p fs !! q = if decide (p = q) then Some (default EmptyString (fs !! p)) else fs !! q.
Proof.
  unfold open_a. destruct (fs !! p) as [c|] eqn:Hp.
  - destruct (decide (p = q)) as [<-|]; [exact Hp | reflexivity].
  - rewrite lookup_insert. destruct (decide (p = q)); reflexivity.
Qed.

Lemma close_file_lookup (p q written : string) (fs : gmap string string) :
  close_file p written fs !! q =
  if decide (p = q) then Some (default EmptyString (fs !! p) +:+ written) else fs !! q.
Proof. unfold close_file. apply lookup_insert. Qed.

(** ** The sequential mapper *)

Section sequential_mapper.
Import jsonl_utils.
Variable map_func : json -> map_outcome.
Variables (source : list json) (dest_file : string) (error_file : option string).
Variables (max_errors : Z) (fs : gmap string string).

Lemma line_map_unfold :
  line_map map_func source dest_file error_file max_errors fs =
  let p := line_map_loop map_func max_errors source loop_start in
  {| result_of := match snd p with
                  | Some e => Raise e
                  | None => Return (PyTuple2 (successful_lines (fst p)) (error_lines (fst p)))
                  end;
     out_written := out_file (fst p);
     err_written := err_file (fst p);
     files_after := close_file dest_file (out_file (fst p))
                      (close_error_file error_file (err_file (fst p))
                         (get_error_file error_file (open_w dest_file fs))) |}.
Proof.
  unfold line_map. destruct (line_map_loop map_func max_errors source loop_start).
  reflexivity.
Qed.

(** The destination after the run holds the text written in the run, when
    the error file is another file or nothing went to the error sink. *)
Lemma line_map_dest_lookup :
  let r := line_map map_func source dest_file error_file max_errors fs in
  error_file <> Some dest_file \/ err_written r = EmptyString ->
  files_after r !! dest_file = Some (out_written r).
Proof.
  rewrite line_map_unfold. simpl. intros Hsep.
  rewrite close_file_lookup, decide_True by reflexivity. f_equal.
  destruct error_file as [p|]; simpl.
  - rewrite close_file_lookup. destruct (decide (p = dest_file)) as [->|Hne].
    + destruct Hsep as [Hsep| ->]; [congruence|].
      rewrite open_a_lookup, decide_True by reflexivity.
      unfold open_w. rewrite lookup_insert_eq. reflexivity.
    + rewrite open_a_lookup, decide_False by exact Hne.
      unfold open_w. rewrite lookup_insert_eq. reflexivity.
  - unfold open_w. rewrite lookup_insert_eq. reflexivity.
Qed.

(** A run whose breaker is off, or whose failures stay within the bound,
    returns the two counts, and has written one line per non-null result
    and the text of every rejected record. *)
Lemma line_map_completed :
  max_errors <= 0 \/ failures map_func source <= max_errors ->
  let r := line_map map_func source dest_file error_file max_errors fs in
  result_of r = Return (PyTuple2 (successes map_func source) (failures map_func source))
  /\ out_written r = unlines (List.map dumps (outputs map_func source))
  /\ err_written r = concat_text (List.map dumps (rejected map_func source)).
Proof.
  intros Hbound. rewrite line_map_unfold.
  rewrite (line_map_loop_completes map_func max_errors source loop_start)
    by (simpl; exact Hbound).
  simpl.
  destruct (process_all_counts map_func source loop_start) as (-> & -> & _).
  rewrite process_all_out_file, process_all_err_file. simpl.
  repeat split.
Qed.

(** A run with the breaker on and more failures than the bound stops at
    the failure number [max_errors + 1]. *)
Lemma line_map_aborted :
  0 < max_errors ->
  max_errors < failures map_func source ->
  let r := line_map map_func source dest_file error_file max_errors fs in
  exists consumed last rest,
    source = consumed ++ last :: rest
    /\ fails map_func last = true
    /\ failures map_func consumed = max_errors
    /\ result_of r = Raise (ValueError_terminating (max_errors + 1))
    /\ out_written r = unlines (List.map dumps (outputs map_func (consumed ++ [last])))
    /\ err_written r = concat_text (List.map dumps (rejected map_func (consumed ++ [last]))).
Proof.
  intros Hon Hover.
  destruct (line_map_loop_aborts map_func max_errors source loop_start Hon)
    as (consumed & last & rest & Hsplit & Hlast & Hcount & Hrun); simpl; [lia | lia |].
  exists consumed, last, rest. rewrite line_map_unfold, Hrun. simpl.
  rewrite process_all_out_file, process_all_err_file. simpl in *.
  repeat split; try assumption.
Qed.

(** The two cases above are the only ones. *)
Lemma line_map_cases :
  (max_errors <= 0 \/ failures map_func source <= max_errors)
  \/ (0 < max_errors /\ max_errors < failures map_func source).
Proof. lia. Qed.

End sequential_mapper.


(** ** The circuit breaker of [line_map] *)






(** C8. When the transform returns None on every record, [line_map]
    returns (N, 0) and writes nothing, neither to the destination, which is
    left empty, nor to the error sink. *)
Theorem line_map_all_null (map_func : json -> map_outcome) (source : list json)
    (dest_file : string) (error_file : option string) (max_errors : Z)
    (fs : gmap string string) :
  (forall item, In item source -> map_func item = Returns JNull) ->
  let r := jsonl_utils.line_map map_func source dest_file error_file max_errors fs in
  result_of r = Return (PyTuple2 (Z.of_nat (length source)) 0)
  /\ out_written r = EmptyString
  /\ files_after r !! dest_file = Some EmptyString
  /\ err_written r = EmptyString.
Proof.
  intros Hall r.
  assert (Hnone : rejected map_func source = [] /\ outputs map_func source = []).
  { induction source as [|item rest IH]; [split; reflexivity|].
    rewrite rejected_cons, outputs_cons. unfold fails, output_of.
    rewrite (Hall item (or_introl eq_refl)).
    apply IH. intros x Hx. apply Hall. right. exact Hx. }
  destruct Hnone as [Hrej Hout0].
  destruct (line_map_completed map_func source dest_file error_file max_errors fs)
    as (Hres & Hout & Herr).
  { unfold failures. rewrite Hrej. simpl. lia. }
  pose proof (successes_failures map_func source) as Hsum.
  unfold failures in Hres, Hsum. rewrite Hrej in Hres, Hsum, Herr.
  rewrite Hout0 in Hout. simpl in Hres, Hsum, Hout, Herr.
  pose proof (line_map_dest_lookup map_func source dest_file error_file max_errors fs
                (or_intror Herr)) as Hdest.
  subst r. rewrite Hdest, Hres, Hout, Herr. repeat split.
  do 2 f_equal. lia.
Qed.

Lemma line_map_all_null_witness :
  let source := [JDict [("a", JInt 1)]; JDict [("a", JStr "bad")]] in
  let drop_all := fun _ : json => Returns JNull in
  let r := jsonl_utils.line_map drop_all source "out.jsonl" (Some "errors.jsonl") 1 ∅ in
  (forall item, In item source -> drop_all item = Returns JNull)
  /\ result_of r = Return (PyTuple2 2 0)
  /\ out_written r = EmptyString
  /\ err_written r = EmptyString.
Proof.
  assert (H : forall item, In item [JDict [("a", JInt 1)]; JDict [("a", JStr "bad")]] ->
                (fun _ : json => Returns JNull) item = Returns JNull).
  { intros item _. reflexivity. }
  split; [exact H|].
  destruct (line_map_all_null _ _ "out.jsonl" (Some "errors.jsonl") 1 ∅ H)
    as (Hres & Hout & _ & Herr).
  repeat split; assumption.
Defined.



(** C10. A run of [line_map] with an error file other than the destination
    leaves in the destination exactly the text it wrote, whatever the file
    system held before, leaves in the error file what was there followed by
    what the run wrote to the sink, and leaves every other file as it
    was. *)
Theorem line_map_files (map_func : json -> map_outcome) (source : list json)
    (dest_file error_file : string) (max_errors : Z) (fs : gmap string string) :
  error_file <> dest_file ->
  let r := jsonl_utils.line_map map_func source dest_file (Some error_file) max_errors fs in
  files_after r !! dest_file = Some (out_written r)
  /\ (forall fs', out_written (jsonl_utils.line_map map_func source dest_file
                                (Some error_file) max_errors fs') = out_written r)
  /\ files_after r !! error_file
     = Some (default EmptyString (fs !! error_file) +:+ err_written r)
  /\ (forall p, p <> dest_file -> p <> error_file -> files_after r !! p = fs !! p).
Proof.
  intros Hne r. subst r. rewrite line_map_unfold. simpl.
  repeat split.
  - rewrite close_file_lookup, decide_True by reflexivity.
    rewrite close_file_lookup, decide_False by exact Hne.
    rewrite open_a_lookup, decide_False by exact Hne.
    unfold open_w. rewrite lookup_insert_eq. reflexivity.
  - intros fs'. rewrite line_map_unfold. reflexivity.
  - rewrite close_file_lookup, decide_False by congruence.
    rewrite close_file_lookup, decide_True by reflexivity.
    rewrite open_a_lookup, decide_True by reflexivity.
    unfold open_w. rewrite lookup_insert_ne by congruence. reflexivity.
  - intros p Hp1 Hp2.
    rewrite close_file_lookup, decide_False by congruence.
    rewrite close_file_lookup, decide_False by congruence.
    rewrite open_a_lookup, decide_False by congruence.
    unfold open_w. rewrite lookup_insert_ne by congruence. reflexivity.
Qed.

Lemma line_map_files_witness :
  let fs : gmap string string :=
    <["errors.jsonl" := "earlier"]> (<["out.jsonl" := "stale"]> ∅) in
  let r := jsonl_utils.line_map double_a scenario_source "out.jsonl"
             (Some "errors.jsonl") 1 fs in
  "errors.jsonl" <> "out.jsonl"
  /\ files_after r !! "out.jsonl" = Some (out_written r)
  /\ files_after r !! "errors.jsonl"
     = Some ("earlier" +:+ dumps (JDict [("a", JStr "bad")])).
Proof.
  assert (Hne : "errors.jsonl" <> "out.jsonl") by discriminate.
  split; [exact Hne|].
  destruct (line_map_files double_a scenario_source "out.jsonl" "errors.jsonl" 1
              (<["errors.jsonl" := "earlier"]> (<["out.jsonl" := "stale"]> ∅)) Hne)
    as (Hdest & _ & Herr & _).
  split; [exact Hdest|]. rewrite Herr. reflexivity.
Defined.

(** ** The parallel mapper *)

Section parallel_mapper.
Import jsonl_utils_parallel.
Variables (results : list MapResult) (dest_file : string) (error_file : option string).
Variables (n_errors_max : Z) (fs : gmap string string).

Lemma line_map_from_results_unfold :
  line_map_from_results results dest_file error_file n_errors_max fs =
  let p := collect n_errors_max results loop_start in
  {| result_of := match snd p with
                  | Some e => Raise e
                  | None => match log_times (all_times (fst p)) with
                            | Some e => Raise e
                            | None => Return PyNone
                            end
                  end;
     out_written := out_file (fst p);
     err_written := err_file (fst p);
     files_after := close_file dest_file (out_file (fst p))
                      (close_error_file error_file (err_file (fst p))
                         (_get_error_file error_file (open_w dest_file fs))) |}.
Proof.
  unfold line_map_from_results. destruct (collect n_errors_max results loop_start).
  reflexivity.
Qed.

(** A collector whose failures stay within the bound reaches the end; the
    function then returns None, unless there was no result at all. *)
Lemma line_map_from_results_completed :
  diverted_results results = []
  \/ Z.of_nat (length (diverted_results results)) <= n_errors_max ->
  let r := line_map_from_results results dest_file error_file n_errors_max fs in
  result_of r = match results with
                | [] => Raise ValueError_min_empty
                | _ :: _ => Return PyNone
                end
  /\ out_written r = unlines (List.map dumps (written_results results))
  /\ err_written r = unlines (List.map dumps (diverted_results results)).
Proof.
  intros Hbound. rewrite line_map_from_results_unfold.
  rewrite (collect_completes n_errors_max results loop_start) by (simpl; exact Hbound).
  simpl.
  rewrite consume_all_all_times, consume_all_out_file, consume_all_err_file. simpl.
  repeat split. destruct results; reflexivity.
Qed.

(** A collector that meets more failures than the bound stops at the
    failure number [n_errors_max + 1]. *)
Lemma line_map_from_results_aborted :
  0 <= n_errors_max ->
  n_errors_max < Z.of_nat (length (diverted_results results)) ->
  let r := line_map_from_results results dest_file error_file n_errors_max fs in
  exists consumed last rest,
    results = consumed ++ last :: rest
    /\ state last = Failure
    /\ Z.of_nat (length (diverted_results consumed)) = n_errors_max
    /\ result_of r = Raise Exception_too_many_errors
    /\ out_written r = unlines (List.map dumps (written_results (consumed ++ [last])))
    /\ err_written r = unlines (List.map dumps (diverted_results (consumed ++ [last]))).
Proof.
  intros Hnonneg Hover.
  destruct (collect_aborts n_errors_max results loop_start)
    as (consumed & last & rest & Hsplit & Hlast & Hcount & Hrun); simpl; [lia | lia |].
  exists consumed, last, rest. rewrite line_map_from_results_unfold, Hrun. simpl.
  rewrite consume_all_out_file, consume_all_err_file. simpl in *.
  repeat split; try assumption.
Qed.

(** Whatever stops the collector, the function never returns a value other
    than None. *)
Lemma line_map_from_results_returns (v : pyval) :
  result_of (line_map_from_results results dest_file error_file n_errors_max fs) = Return v ->
  v = PyNone.
Proof.
  rewrite line_map_from_results_unfold. simpl.
  destruct (snd (collect n_errors_max results loop_start)); [discriminate|].
  destruct (log_times _); [discriminate|].
  intros H. injection H as <-. reflexivity.
Qed.

End parallel_mapper.

Lemma diverted_results_app (l1 l2 : list jsonl_utils_parallel.MapResult) :
  diverted_results (l1 ++ l2) = diverted_results l1 ++ diverted_results l2.
Proof. apply omap_app. Qed.

(** A collector that reaches the end with a result has consumed every
    result. *)
Lemma collect_reaches_end (n_errors_max : Z) (results : list jsonl_utils_parallel.MapResult)
    (st st' : jsonl_utils_parallel.loop_state) :
  jsonl_utils_parallel.collect n_errors_max results st = (st', None) ->
  st' = consume_all results st.
Proof.
  revert st. induction results as [|r results IH]; intros st.
  - simpl. intros H. injection H as <-. reflexivity.
  - rewrite consume_all_cons. simpl jsonl_utils_parallel.collect.
    destruct (jsonl_utils_parallel.state r); [apply IH|].
    destruct (n_errors_max <? _); [discriminate|apply IH].
Qed.

(** ** What [line_map_parallel] returns *)

(** C1, as the code has it.  A run of [line_map_parallel] that completes
    normally returns None: the function has no return statement and counts
    errors only.  Such a run has written one line per non-null result and
    one line per record the transform failed on.  The pair of counts is
    what the sequential [line_map] returns. *)
Theorem line_map_parallel_returns_none (map_func : json -> map_outcome)
    (source : list json) (dest_file : string) (n_worker_tasks : Z)
    (error_file : option string) (n_errors_max : Z) (clock : nat -> float * float)
    (fs : gmap string string) (v : pyval) :
  let r := jsonl_utils_parallel.line_map_parallel map_func source dest_file
             n_worker_tasks error_file n_errors_max clock fs in
  result_of r = Return v ->
  v = PyNone
  /\ out_written r = unlines (List.map dumps (outputs map_func source))
  /\ err_written r = unlines (List.map dumps (rejected map_func source))
  /\ result_of (jsonl_utils.line_map map_func source dest_file error_file 0 fs)
     = Return (PyTuple2 (successes map_func source) (failures map_func source)).
Proof.
  intros r Hret. subst r. unfold jsonl_utils_parallel.line_map_parallel in *.
  split; [exact (line_map_from_results_returns _ _ _ _ _ _ Hret)|].
  rewrite line_map_from_results_unfold in *.
  destruct (jsonl_utils_parallel.collect n_errors_max _ _) as [st' [e|]] eqn:Hrun;
    simpl in *; [discriminate|].
  apply collect_reaches_end in Hrun. subst st'.
  rewrite consume_all_out_file, consume_all_err_file.
  rewrite delayed_results_written, delayed_results_diverted. simpl.
  repeat split.
  apply (line_map_completed map_func source dest_file error_file 0 fs). left. lia.
Qed.

Lemma line_map_parallel_returns_none_witness :
  let r := jsonl_utils_parallel.line_map_parallel double_a scenario_source "out.jsonl"
             2 None 5 (fun _ => (0%float, 1%float)) ∅ in
  result_of r = Return PyNone
  /\ PyNone = PyNone
  /\ out_written r = unlines (List.map dumps (outputs double_a scenario_source))
  /\ err_written r = unlines (List.map dumps (rejected double_a scenario_source))
  /\ result_of (jsonl_utils.line_map double_a scenario_source "out.jsonl" None 0 ∅)
     = Return (PyTuple2 (successes double_a scenario_source)
                        (failures double_a scenario_source)).
Proof.
  split; [reflexivity|].
  apply (line_map_parallel_returns_none double_a scenario_source "out.jsonl"
           2 None 5 (fun _ => (0%float, 1%float)) ∅ PyNone).
  reflexivity.
Defined.

(** The claim fails on a run that completes normally: the parallel mapper
    hands back None where the sequential mapper hands back (2, 1). *)
Lemma line_map_parallel_gives_no_counts :
  result_of (jsonl_utils_parallel.line_map_parallel double_a scenario_source "out.jsonl"
               2 None 5 (fun _ => (0%float, 1%float)) ∅) = Return PyNone
  /\ result_of (jsonl_utils.line_map double_a scenario_source "out.jsonl" None 5 ∅)
     = Return (PyTuple2 2 1).
Proof. split; reflexivity. Qed.

(** ** The adapter *)


(** ** The scenario under the parallel mapper *)

(** With a bound of 0 the first failure stops [line_map_parallel]: on the
    scenario it raises where the claim has it complete with (2, 1). *)
Lemma line_map_parallel_zero_bound_aborts :
  result_of (jsonl_utils_parallel.line_map_parallel double_a scenario_source "out.jsonl"
               2 None 0 (fun _ => (0%float, 1%float)) ∅)
  = Raise Exception_too_many_errors.
Proof. reflexivity. Qed.

(** C3, as the code has it.  On the three records of the scenario, in
    whatever order the results reach the collector: with a bound of 0 the
    parallel mapper raises its too-many-errors exception, the error sink
    holding the line of the original failing record; with a bound of 1 or
    more it completes and returns None, the destination holds the same
    lines as after the sequential run, up to their order, and the error
    sink holds the failing record as one terminated line.  The sequential
    run returns (2, 1). *)
Theorem line_map_parallel_scenario (results : list jsonl_utils_parallel.MapResult)
    (clock : nat -> float * float) (dest_file : string) (error_file : option string)
    (n_errors_max : Z) (fs : gmap string string) :
  Permutation results (jsonl_utils_parallel.delayed_results double_a clock scenario_source) ->
  let bad := JDict [("a", JStr "bad")] in
  let stopped := jsonl_utils_parallel.line_map_from_results results dest_file error_file 0 fs in
  let r := jsonl_utils_parallel.line_map_from_results results dest_file error_file
             n_errors_max fs in
  let seq := jsonl_utils.line_map double_a scenario_source dest_file error_file 0 fs in
  result_of (jsonl_utils_parallel.line_map_parallel double_a scenario_source dest_file 2
               error_file 0 clock fs) = Raise Exception_too_many_errors
  /\ result_of stopped = Raise Exception_too_many_errors
  /\ err_written stopped = unlines [dumps bad]
  /\ (1 <= n_errors_max ->
      result_of r = Return PyNone
      /\ (exists lines, out_written r = unlines lines
           /\ Permutation lines [dumps (JDict [("a", JInt 2)]); dumps (JDict [("a", JInt 4)])])
      /\ err_written r = unlines [dumps bad])
  /\ result_of seq = Return (PyTuple2 2 1)
  /\ out_written seq = unlines [dumps (JDict [("a", JInt 2)]); dumps (JDict [("a", JInt 4)])]
  /\ err_written seq = dumps bad.
Proof.
  intros Hperm bad stopped r seq.
  assert (Hdiv : diverted_results results = [bad]).
  { apply Permutation_length_1_inv. symmetry.
    change [bad] with (rejected double_a scenario_source).
    rewrite <- (delayed_results_diverted double_a clock).
    unfold diverted_results. apply omap_Permutation. exact Hperm. }
  assert (Hwr : Permutation (written_results results)
                  [JDict [("a", JInt 2)]; JDict [("a", JInt 4)]]).
  { change [JDict [("a", JInt 2)]; JDict [("a", JInt 4)]]
      with (outputs double_a scenario_source).
    rewrite <- (delayed_results_written double_a clock).
    unfold written_results. apply omap_Permutation. exact Hperm. }
  assert (Hstop : forall rs, diverted_results rs = [bad] ->
            let s := jsonl_utils_parallel.line_map_from_results rs dest_file error_file 0 fs in
            result_of s = Raise Exception_too_many_errors
            /\ err_written s = unlines [dumps bad]).
  { intros rs Hrs.
    destruct (line_map_from_results_aborted rs dest_file error_file 0 fs)
      as (consumed & last & rest & Hsplit & Hlast & Hcount & Hres & _ & Herr);
      [lia | rewrite Hrs; simpl; lia |].
    split; [exact Hres|]. simpl. rewrite Herr.
    rewrite Hsplit, diverted_results_app in Hrs.
    rewrite diverted_results_app.
    destruct (diverted_results consumed); [|simpl in Hcount; lia].
    rewrite diverted_results_cons in Hrs. simpl in Hrs |- *.
    unfold diverted_of in *. rewrite Hlast in *.
    injection Hrs as -> _. reflexivity. }
  split; [|split; [|split; [|split]]].
  - apply (Hstop (jsonl_utils_parallel.delayed_results double_a clock scenario_source)).
    apply delayed_results_diverted.
  - apply (Hstop results Hdiv).
  - apply (Hstop results Hdiv).
  - intros Hmax.
    destruct (line_map_from_results_completed results dest_file error_file n_errors_max fs)
      as (Hres & Hout & Herr); [right; rewrite Hdiv; simpl; lia|].
    subst r. rewrite Hres, Hout, Herr, Hdiv. repeat split.
    + destruct results; [|reflexivity].
      apply Permutation_nil in Hperm. discriminate Hperm.
    + eexists. split; [reflexivity|].
      change [dumps (JDict [("a", JInt 2)]); dumps (JDict [("a", JInt 4)])]
        with (List.map dumps [JDict [("a", JInt 2)]; JDict [("a", JInt 4)]]).
      apply Permutation_map. exact Hwr.
  - destruct (line_map_completed double_a scenario_source dest_file error_file 0 fs)
      as (Hres & Hout & Herr); [left; lia|].
    subst seq. rewrite Hres, Hout, Herr. repeat split.
Qed.

Lemma line_map_parallel_scenario_witness :
  let clock := fun _ : nat => (0%float, 1%float) in
  let results := jsonl_utils_parallel.delayed_results double_a clock scenario_source in
  let bad := JDict [("a", JStr "bad")] in
  let stopped := jsonl_utils_parallel.line_map_from_results results "out.jsonl" None 0 ∅ in
  Permutation results results
  /\ result_of stopped = Raise Exception_too_many_errors
  /\ err_written stopped = unlines [dumps bad]
  /\ result_of (jsonl_utils_parallel.line_map_from_results results "out.jsonl" None 1 ∅)
     = Return PyNone.
Proof.
  split; [apply Permutation_refl|].
  destruct (line_map_parallel_scenario
              (jsonl_utils_parallel.delayed_results double_a
                 (fun _ : nat => (0%float, 1%float)) scenario_source)
              (fun _ : nat => (0%float, 1%float)) "out.jsonl" None 1 ∅
              (Permutation_refl _))
    as (_ & Hstop & Herr & Hdone & _).
  split; [exact Hstop|]. split; [exact Herr|].
  destruct Hdone as (Hres & _); [lia | exact Hres].
Defined.

(** ** The empty source *)



(** ** The lines of the error sink *)

(** C4 at a failing input.  Both mappers write the original record to the
    error sink, but [line_map] writes no line terminator after it: two
    records the transform fails on end up on one line there, where
    [line_map_parallel] writes two lines. *)
Theorem line_map_error_sink_unterminated :
  let bad := JDict [("a", JStr "bad")] in
  let seq := jsonl_utils.line_map double_a [bad; bad] "out.jsonl" (Some "errors.jsonl") 0 ∅ in
  let par := jsonl_utils_parallel.line_map_parallel double_a [bad; bad] "out.jsonl" 2
               (Some "errors.jsonl") 5 (fun _ => (0%float, 1%float)) ∅ in
  err_written seq = dumps bad +:+ dumps bad
  /\ line_count (err_written seq) = 0%nat
  /\ files_after seq !! "errors.jsonl" = Some (dumps bad +:+ dumps bad)
  /\ err_written par = unlines [dumps bad; dumps bad]
  /\ line_count (err_written par) = 2%nat.
Proof. repeat split; reflexivity. Qed.

(** In every run of [line_map] the text written to the error sink is the
    records the transform failed on, one after the other, and holds no line
    terminator at all. *)
Lemma line_map_error_sink_one_line (map_func : json -> map_outcome) (source : list json)
    (dest_file : string) (error_file : option string) (max_errors : Z)
    (fs : gmap string string) :
  let r := jsonl_utils.line_map map_func source dest_file error_file max_errors fs in
  (exists consumed rest,
     source = consumed ++ rest
     /\ err_written r = concat_text (List.map dumps (rejected map_func consumed)))
  /\ one_line (err_written r).
Proof.
  intros r.
  assert (Hex : exists consumed rest,
     source = consumed ++ rest
     /\ err_written r = concat_text (List.map dumps (rejected map_func consumed))).
  { destruct (line_map_cases map_func source max_errors) as [Hin|[Hon Hover]].
    - destruct (line_map_completed map_func source dest_file error_file max_errors fs Hin)
        as (_ & _ & Herr).
      exists source, []. split; [now rewrite app_nil_r | exact Herr].
    - destruct (line_map_aborted map_func source dest_file error_file max_errors fs Hon Hover)
        as (consumed & last & rest & Hsplit & _ & _ & _ & _ & Herr).
      exists (consumed ++ [last]), rest. split; [|exact Herr].
      rewrite Hsplit, <- app_assoc. reflexivity. }
  split; [exact Hex|].
  destruct Hex as (consumed & rest & _ & ->).
  apply concat_text_one_line. apply List.Forall_forall.
  intros l Hl. apply in_map_iff in Hl as (v & <- & _). apply dumps_one_line.
Qed.

(** In every run of the parallel collector the text written to the error
    sink is the original records of the failures consumed, each one a line
    with its terminator. *)
Lemma line_map_from_results_error_sink_lines
    (results : list jsonl_utils_parallel.MapResult) (dest_file : string)
    (error_file : option string) (n_errors_max : Z) (fs : gmap string string) :
  0 <= n_errors_max ->
  let r := jsonl_utils_parallel.line_map_from_results results dest_file error_file
             n_errors_max fs in
  exists consumed rest,
    results = consumed ++ rest
    /\ err_written r = unlines (List.map dumps (diverted_results consumed))
    /\ line_count (err_written r) = length (diverted_results consumed).
Proof.
  intros Hnonneg r.
  assert (Hlines : forall rs, line_count (unlines (List.map dumps (diverted_results rs)))
                              = length (diverted_results rs)).
  { intros rs. rewrite line_count_unlines, length_map; [reflexivity|].
    apply List.Forall_forall. intros l Hl. apply in_map_iff in Hl as (v & <- & _).
    apply dumps_one_line. }
  destruct (Z.le_gt_cases (Z.of_nat (length (diverted_results results))) n_errors_max)
    as [Hin|Hover].
  - destruct (line_map_from_results_completed results dest_file error_file n_errors_max fs)
      as (_ & _ & Herr); [right; exact Hin|].
    exists results, []. subst r. rewrite Herr, app_nil_r. repeat split. apply Hlines.
  - destruct (line_map_from_results_aborted results dest_file error_file n_errors_max fs
                Hnonneg Hover)
      as (consumed & last & rest & Hsplit & _ & _ & _ & _ & Herr).
    exists (consumed ++ [last]), rest. subst r. rewrite Herr. repeat split.
    + rewrite Hsplit, <- app_assoc. reflexivity.
    + apply Hlines.
Qed.

(** * Further properties of the sequential mapper *)

(** Whatever way a run of [line_map] ends, it has consumed a prefix of the
    source, all of it when it returns; the texts it wrote are those of that
    prefix. *)
Lemma line_map_consumed (map_func : json -> map_outcome) (source : list json)
    (dest_file : string) (error_file : option string) (max_errors : Z)
    (fs : gmap string string) :
  let r := jsonl_utils.line_map map_func source dest_file error_file max_errors fs in
  exists consumed rest,
    source = consumed ++ rest
    /\ (forall v, result_of r = Return v -> rest = [])
    /\ out_written r = unlines (List.map dumps (outputs map_func consumed))
    /\ err_written r = concat_text (List.map dumps (rejected map_func consumed)).
Proof.
  intros r.
  destruct (line_map_cases map_func source max_errors) as [Hin|[Hon Hover]].
  - destruct (line_map_completed map_func source dest_file error_file max_errors fs Hin)
      as (_ & Hout & Herr).
    exists source, []. rewrite app_nil_r. repeat split; assumption.
  - destruct (line_map_aborted map_func source dest_file error_file max_errors fs Hon Hover)
      as (consumed & last & rest & Hsplit & _ & _ & Hres & Hout & Herr).
    exists (consumed ++ [last]), rest. repeat split; try assumption.
    + rewrite Hsplit, <- app_assoc. reflexivity.
    + intros v Hv. subst r. rewrite Hres in Hv. discriminate Hv.
Qed.

Lemma dumps_lines_one_line (values : list json) : Forall one_line (List.map dumps values).
Proof.
  apply List.Forall_forall. intros l Hl. apply in_map_iff in Hl as (v & <- & _).
  apply dumps_one_line.
Qed.




(** X3. Running [line_map] a second time on the files the first run left,
    with the same transform, source and error file (not the destination):
    the result is the same, the destination file is the same text again,
    and the error file has grown by the text of the rejected records once
    more. *)
Theorem line_map_rerun (map_func : json -> map_outcome) (source : list json)
    (dest_file error_file : string) (max_errors : Z) (fs : gmap string string) :
  error_file <> dest_file ->
  let r1 := jsonl_utils.line_map map_func source dest_file (Some error_file) max_errors fs in
  let r2 := jsonl_utils.line_map map_func source dest_file (Some error_file) max_errors
              (files_after r1) in
  result_of r2 = result_of r1
  /\ files_after r2 !! dest_file = files_after r1 !! dest_file
  /\ files_after r1 !! error_file
     = Some (default EmptyString (fs !! error_file) +:+ err_written r1)
  /\ files_after r2 !! error_file
     = Some ((default EmptyString (fs !! error_file) +:+ err_written r1) +:+ err_written r1)
  /\ (forall p, p <> dest_file -> p <> error_file -> files_after r2 !! p = fs !! p).
Proof.
  intros Hne r1 r2.
  assert (Hne' : Some error_file <> Some dest_file) by congruence.
  assert (Hsame : result_of r2 = result_of r1 /\ out_written r2 = out_written r1
                  /\ err_written r2 = err_written r1).
  { subst r1 r2. rewrite !line_map_unfold. simpl. repeat split. }
  destruct Hsame as (Hres & Hout & Herr).
  pose proof (line_map_dest_lookup map_func source dest_file (Some error_file) max_errors fs
                (or_introl Hne')) as Hd1.
  pose proof (line_map_dest_lookup map_func source dest_file (Some error_file) max_errors
                (files_after r1) (or_introl Hne')) as Hd2.
  fold r1 in Hd1. fold r2 in Hd2.
  assert (Herrfile : forall fs0,
            files_after (jsonl_utils.line_map map_func source dest_file (Some error_file)
                           max_errors fs0) !! error_file
            = Some (default EmptyString (fs0 !! error_file)
                    +:+ err_written (jsonl_utils.line_map map_func source dest_file
                                       (Some error_file) max_errors fs0))
            /\ forall p, p <> dest_file -> p <> error_file ->
                 files_after (jsonl_utils.line_map map_func source dest_file
                                (Some error_file) max_errors fs0) !! p = fs0 !! p).
  { intros fs0. rewrite line_map_unfold. simpl. split.
    - rewrite close_file_lookup, decide_False by congruence.
      rewrite close_file_lookup, decide_True by reflexivity.
      rewrite open_a_lookup, decide_True by reflexivity.
      unfold open_w. rewrite lookup_insert_ne by congruence. reflexivity.
    - intros p Hp1 Hp2.
      rewrite close_file_lookup, decide_False by congruence.
      rewrite close_file_lookup, decide_False by congruence.
      rewrite open_a_lookup, decide_False by congruence.
      unfold open_w. rewrite lookup_insert_ne by congruence. reflexivity. }
  destruct (Herrfile fs) as (He1 & Hp1).
  destruct (Herrfile (files_after r1)) as (He2 & Hp2).
  fold r1 in He1, Hp1. fold r2 in He2, Hp2.
  repeat split.
  - exact Hres.
  - rewrite Hd1, Hd2, Hout. reflexivity.
  - exact He1.
  - rewrite He2, He1, Herr. reflexivity.
  - intros p Hpd Hpe. rewrite Hp2, Hp1 by assumption. reflexivity.
Qed.

Lemma line_map_rerun_witness :
  let fs : gmap string string := <["errors.jsonl" := "earlier"]> ∅ in
  let bad := dumps (JDict [("a", JStr "bad")]) in
  let r1 := jsonl_utils.line_map double_a scenario_source "out.jsonl"
              (Some "errors.jsonl") 1 fs in
  let r2 := jsonl_utils.line_map double_a scenario_source "out.jsonl"
              (Some "errors.jsonl") 1 (files_after r1) in
  "errors.jsonl" <> "out.jsonl"
  /\ files_after r2 !! "out.jsonl" = files_after r1 !! "out.jsonl"
  /\ files_after r2 !! "errors.jsonl" = Some (("earlier" +:+ bad) +:+ bad).
Proof.
  assert (Hne : "errors.jsonl" <> "out.jsonl") by discriminate.
  split; [exact Hne|].
  destruct (line_map_rerun double_a scenario_source "out.jsonl" "errors.jsonl" 1
              (<["errors.jsonl" := "earlier"]> ∅) Hne)
    as (_ & Hdest & _ & Herr & _).
  split; [exact Hdest|]. rewrite Herr. reflexivity.
Defined.

(** When the transform raises on every record, all are rejected and none
    gives an output. *)
Lemma rejected_all (map_func : json -> map_outcome) (source : list json) :
  (forall item, In item source -> exists msg, map_func item = Raises msg) ->
  rejected map_func source = source /\ outputs map_func source = [].
Proof.
  induction source as [|item rest IH]; intros Hall; [split; reflexivity|].
  rewrite rejected_cons, outputs_cons. unfold fails, output_of.
  destruct (Hall item (or_introl eq_refl)) as (msg & ->).
  destruct IH as [-> ->]; [|split; reflexivity].
  intros x Hx. apply Hall. right. exact Hx.
Qed.

(** X4. When the transform raises on every record, [line_map] writes
    nothing to the destination.  With the breaker on and fewer allowed
    errors than records, it stops after exactly [max_errors + 1] records,
    which are the records in the error sink; otherwise it returns (0, N)
    with every record in the error sink. *)
Theorem line_map_all_fail (map_func : json -> map_outcome) (source : list json)
    (dest_file : string) (error_file : option string) (max_errors : Z)
    (fs : gmap string string) :
  (forall item, In item source -> exists msg, map_func item = Raises msg) ->
  let r := jsonl_utils.line_map map_func source dest_file error_file max_errors fs in
  out_written r = EmptyString
  /\ (0 < max_errors /\ max_errors < Z.of_nat (length source) ->
      result_of r = Raise (ValueError_terminating (max_errors + 1))
      /\ err_written r
         = concat_text (List.map dumps (take (Z.to_nat (max_errors + 1)) source)))
  /\ (max_errors <= 0 \/ Z.of_nat (length source) <= max_errors ->
      result_of r = Return (PyTuple2 0 (Z.of_nat (length source)))
      /\ err_written r = concat_text (List.map dumps source)).
Proof.
  intros Hall r.
  destruct (rejected_all map_func source Hall) as [Hrej Hout0].
  assert (Hfail : failures map_func source = Z.of_nat (length source)).
  { unfold failures. rewrite Hrej. reflexivity. }
  destruct (line_map_consumed map_func source dest_file error_file max_errors fs)
    as (consumed & rest & Hsplit & _ & Hout & _). fold r in Hout.
  assert (Hsub : forall item, In item consumed -> exists msg, map_func item = Raises msg).
  { intros item Hin. apply Hall. rewrite Hsplit. apply in_or_app. left. exact Hin. }
  destruct (rejected_all map_func consumed Hsub) as [_ Hout1].
  rewrite Hout1 in Hout. simpl in Hout.
  split; [exact Hout|]. split.
  - intros [Hon Hover].
    destruct (line_map_aborted map_func source dest_file error_file max_errors fs Hon)
      as (done & last & tail & Hsplit' & _ & Hcount & Hres & _ & Herr); [lia|].
    fold r in Hres, Herr. split; [exact Hres|]. rewrite Herr.
    assert (Hdone : forall item, In item (done ++ [last]) ->
                      exists msg, map_func item = Raises msg).
    { intros item Hin. apply Hall. rewrite Hsplit'.
      apply in_app_or in Hin as [Hin|[<-|[]]]; apply in_or_app;
        [left; exact Hin | right; left; reflexivity]. }
    destruct (rejected_all map_func (done ++ [last]) Hdone) as [-> _].
    assert (Hd : forall item, In item done -> exists msg, map_func item = Raises msg).
    { intros item Hin. apply Hdone. apply in_or_app. left. exact Hin. }
    destruct (rejected_all map_func done Hd) as [Hrd _].
    unfold failures in Hcount. rewrite Hrd in Hcount.
    replace (Z.to_nat (max_errors + 1)) with (length (done ++ [last]))
      by (rewrite length_app; simpl; lia).
    rewrite Hsplit'.
    replace (done ++ last :: tail) with ((done ++ [last]) ++ tail)
      by (rewrite <- app_assoc; reflexivity).
    rewrite take_app_length. reflexivity.
  - intros Hin.
    destruct (line_map_completed map_func source dest_file error_file max_errors fs)
      as (Hres & _ & Herr); [rewrite Hfail; exact Hin|].
    fold r in Hres, Herr. rewrite Hres, Herr, Hrej, Hfail.
    pose proof (successes_failures map_func source) as Hsum.
    split; [|reflexivity]. do 2 f_equal. lia.
Qed.

Lemma line_map_all_fail_witness :
  let bad := JDict [("a", JStr "bad")] in
  let source := [bad; bad; bad] in
  let r := jsonl_utils.line_map double_a source "out.jsonl" None 1 ∅ in
  (forall item, In item source -> exists msg, double_a item = Raises msg)
  /\ out_written r = EmptyString
  /\ result_of r = Raise (ValueError_terminating 2)
  /\ err_written r = dumps bad +:+ dumps bad.
Proof.
  assert (H : forall item, In item [JDict [("a", JStr "bad")]; JDict [("a", JStr "bad")];
                                    JDict [("a", JStr "bad")]] ->
                exists msg, double_a item = Raises msg).
  { intros item [<-|[<-|[<-|[]]]]; eexists; reflexivity. }
  split; [exact H|].
  destruct (line_map_all_fail double_a _ "out.jsonl" None 1 ∅ H) as (Hout & Hstop & _).
  split; [exact Hout|].
  destruct Hstop as (Hres & Herr); [simpl; lia|].
  split; [exact Hres|]. rewrite Herr. reflexivity.
Defined.

(** * Further properties of the parallel mapper *)

Lemma delayed_results_cons (map_func : json -> map_outcome) (clock : nat -> float * float)
    (item : json) (source : list json) :
  jsonl_utils_parallel.delayed_results map_func clock (item :: source)
  = jsonl_utils_parallel._map_wrapper item map_func (fst (clock 0%nat)) (snd (clock 0%nat))
    :: jsonl_utils_parallel.delayed_results map_func (fun i => clock (S i)) source.
Proof. unfold jsonl_utils_parallel.delayed_results. rewrite imap_cons. reflexivity. Qed.

Lemma map_wrapper_state (map_func : json -> map_outcome) (item : json) (start stop : float) :
  jsonl_utils_parallel.state (jsonl_utils_parallel._map_wrapper item map_func start stop)
  = if fails map_func item then jsonl_utils_parallel.Failure
    else jsonl_utils_parallel.Success.
Proof.
  unfold jsonl_utils_parallel._map_wrapper, fails.
  destruct (map_func item); reflexivity.
Qed.

Lemma collect_cons (n_errors_max : Z) (r : jsonl_utils_parallel.MapResult)
    (rest : list jsonl_utils_parallel.MapResult) (st : jsonl_utils_parallel.loop_state) :
  jsonl_utils_parallel.collect n_errors_max (r :: rest) st
  = match jsonl_utils_parallel.state r with
    | jsonl_utils_parallel.Failure =>
        if n_errors_max <? jsonl_utils_parallel.n_errors (jsonl_utils_parallel.consume r st)
        then (jsonl_utils_parallel.consume r st, Some Exception_too_many_errors)
        else jsonl_utils_parallel.collect n_errors_max rest (jsonl_utils_parallel.consume r st)
    | jsonl_utils_parallel.Success =>
        jsonl_utils_parallel.collect n_errors_max rest (jsonl_utils_parallel.consume r st)
    end.
Proof. reflexivity. Qed.

(** The collector over the jobs of a source stops at the first failure that
    takes the count past the bound. *)
Lemma collect_delayed_aborts (map_func : json -> map_outcome) (n_errors_max : Z)
    (source : list json) (clock : nat -> float * float)
    (st : jsonl_utils_parallel.loop_state) :
  0 < failures map_func source ->
  n_errors_max < jsonl_utils_parallel.n_errors st + failures map_func source ->
  exists consumed last rest,
    source = consumed ++ last :: rest
    /\ fails map_func last = true
    /\ jsonl_utils_parallel.n_errors st + failures map_func (consumed ++ [last])
       = Z.max (jsonl_utils_parallel.n_errors st + 1) (n_errors_max + 1)
    /\ jsonl_utils_parallel.collect n_errors_max
         (jsonl_utils_parallel.delayed_results map_func clock source) st
       = (consume_all (jsonl_utils_parallel.delayed_results map_func clock (consumed ++ [last])) st,
          Some Exception_too_many_errors).
Proof.
  revert clock st. induction source as [|item source IH]; intros clock st Hpos Hover.
  - unfold failures in Hpos. simpl in Hpos. lia.
  - rewrite delayed_results_cons, collect_cons, map_wrapper_state.
    set (r := jsonl_utils_parallel._map_wrapper item map_func _ _).
    pose proof (consume_n_errors r st) as Herr.
    unfold diverted_of in Herr. subst r. rewrite map_wrapper_state in Herr.
    set (r := jsonl_utils_parallel._map_wrapper item map_func _ _) in *.
    rewrite failures_cons in Hpos, Hover.
    destruct (fails map_func item) eqn:Hitem.
    + destruct (Z.ltb_spec n_errors_max
                  (jsonl_utils_parallel.n_errors (jsonl_utils_parallel.consume r st)))
        as [Hnow|Hlater].
      * exists [], item, source.
        split; [reflexivity|]. split; [exact Hitem|]. split; [|reflexivity].
        simpl app. rewrite failures_cons, Hitem. unfold failures. simpl. lia.
      * destruct (IH (fun i => clock (S i)) (jsonl_utils_parallel.consume r st))
          as (consumed & last & rest & -> & Hlast & Hcount & Hrun); [lia | lia |].
        exists (item :: consumed), last, rest.
        split; [reflexivity|]. split; [exact Hlast|]. split.
        -- simpl app. rewrite failures_cons, Hitem. lia.
        -- rewrite Hrun. simpl app. rewrite delayed_results_cons. reflexivity.
    + destruct (IH (fun i => clock (S i)) (jsonl_utils_parallel.consume r st))
        as (consumed & last & rest & -> & Hlast & Hcount & Hrun); [lia | lia |].
      exists (item :: consumed), last, rest.
      split; [reflexivity|]. split; [exact Hlast|]. split.
      * simpl app. rewrite failures_cons, Hitem. lia.
      * rewrite Hrun. simpl app. rewrite delayed_results_cons. reflexivity.
Qed.

(** The two ways a run of [line_map_parallel] goes: the collector reaches
    the end of the results, or it stops at a failure. *)
Lemma line_map_parallel_cases (map_func : json -> map_outcome) (source : list json)
    (dest_file : string) (n_worker_tasks : Z) (error_file : option string)
    (n_errors_max : Z) (clock : nat -> float * float) (fs : gmap string string) :
  let r := jsonl_utils_parallel.line_map_parallel map_func source dest_file
             n_worker_tasks error_file n_errors_max clock fs in
  ((failures map_func source = 0 \/ failures map_func source <= n_errors_max)
   /\ result_of r = match source with
                    | [] => Raise ValueError_min_empty
                    | _ :: _ => Return PyNone
                    end
   /\ out_written r = unlines (List.map dumps (outputs map_func source))
   /\ err_written r = unlines (List.map dumps (rejected map_func source)))
  \/ ((0 < failures map_func source /\ n_errors_max < failures map_func source)
      /\ result_of r = Raise Exception_too_many_errors
      /\ exists consumed last rest,
           source = consumed ++ last :: rest
           /\ fails map_func last = true
           /\ failures map_func (consumed ++ [last]) = Z.max 1 (n_errors_max + 1)
           /\ out_written r = unlines (List.map dumps (outputs map_func (consumed ++ [last])))
           /\ err_written r
              = unlines (List.map dumps (rejected map_func (consumed ++ [last])))).
Proof.
  intros r. subst r. unfold jsonl_utils_parallel.line_map_parallel.
  pose proof (failures_nonneg map_func source) as Hnn.
  destruct (Z.eq_dec (failures map_func source) 0) as [Hzero|Hsome];
    [|destruct (Z.le_gt_cases (failures map_func source) n_errors_max) as [Hin|Hover]].
  - left. split; [left; exact Hzero|].
    destruct (line_map_from_results_completed
                (jsonl_utils_parallel.delayed_results map_func clock source)
                dest_file error_file n_errors_max fs) as (Hres & Hout & Herr).
    { left. rewrite delayed_results_diverted. unfold failures in Hzero.
      destruct (rejected map_func source); [reflexivity|simpl in Hzero; lia]. }
    rewrite Hres, Hout, Herr, delayed_results_written, delayed_results_diverted.
    repeat split. destruct source; reflexivity.
  - left. split; [right; exact Hin|].
    destruct (line_map_from_results_completed
                (jsonl_utils_parallel.delayed_results map_func clock source)
                dest_file error_file n_errors_max fs) as (Hres & Hout & Herr).
    { right. rewrite delayed_results_diverted. exact Hin. }
    rewrite Hres, Hout, Herr, delayed_results_written, delayed_results_diverted.
    repeat split. destruct source; reflexivity.
  - right. split; [lia|].
    destruct (collect_delayed_aborts map_func n_errors_max source clock
                jsonl_utils_parallel.loop_start)
      as (consumed & last & rest & Hsplit & Hlast & Hcount & Hrun); simpl; [lia | lia |].
    rewrite line_map_from_results_unfold, Hrun. simpl.
    split; [reflexivity|]. exists consumed, last, rest.
    rewrite consume_all_out_file, consume_all_err_file,
      delayed_results_written, delayed_results_diverted. simpl in *.
    repeat split; try assumption.
Qed.


(** X6. When [line_map_parallel] stops with its too-many-errors exception,
    the record it stopped at is one the transform failed on, and the error
    sink holds the original records of the failures up to and including
    that one, one line each: [n_errors_max + 1] lines, or one line when the
    bound is negative.  The destination keeps the lines written until
    then. *)
Theorem line_map_parallel_abort_lines (map_func : json -> map_outcome) (source : list json)
    (dest_file : string) (n_worker_tasks : Z) (error_file : option string)
    (n_errors_max : Z) (clock : nat -> float * float) (fs : gmap string string) :
  let r := jsonl_utils_parallel.line_map_parallel map_func source dest_file
             n_worker_tasks error_file n_errors_max clock fs in
  result_of r = Raise Exception_too_many_errors ->
  exists consumed last rest,
    source = consumed ++ last :: rest
    /\ fails map_func last = true
    /\ Z.of_nat (length (rejected map_func (consumed ++ [last]))) = Z.max 1 (n_errors_max + 1)
    /\ err_written r = unlines (List.map dumps (rejected map_func (consumed ++ [last])))
    /\ line_count (err_written r) = length (rejected map_func (consumed ++ [last]))
    /\ out_written r = unlines (List.map dumps (outputs map_func (consumed ++ [last]))).
Proof.
  intros r Hstop.
  destruct (line_map_parallel_cases map_func source dest_file n_worker_tasks error_file
              n_errors_max clock fs)
    as [(_ & Hres & _)|(_ & _ & consumed & last & rest & Hsplit & Hlast & Hcount & Hout & Herr)].
  - fold r in Hres. rewrite Hres in Hstop. destruct source; discriminate Hstop.
  - fold r in Hout, Herr. exists consumed, last, rest.
    split; [exact Hsplit|]. split; [exact Hlast|]. split; [exact Hcount|].
    split; [exact Herr|]. split; [|exact Hout].
    rewrite Herr, line_count_unlines, length_map; [reflexivity|apply dumps_lines_one_line].
Qed.

Lemma line_map_parallel_abort_lines_witness :
  let bad := JDict [("a", JStr "bad")] in
  let source := [bad; JDict [("a", JInt 1)]; bad; bad] in
  let r := jsonl_utils_parallel.line_map_parallel double_a source "out.jsonl" 2 None 1
             (fun _ => (0%float, 1%float)) ∅ in
  result_of r = Raise Exception_too_many_errors
  /\ exists consumed last rest,
       source = consumed ++ last :: rest
       /\ fails double_a last = true
       /\ Z.of_nat (length (rejected double_a (consumed ++ [last]))) = Z.max 1 (1 + 1)
       /\ err_written r = unlines (List.map dumps (rejected double_a (consumed ++ [last])))
       /\ line_count (err_written r) = length (rejected double_a (consumed ++ [last]))
       /\ out_written r = unlines (List.map dumps (outputs double_a (consumed ++ [last]))).
Proof.
  split; [reflexivity|].
  apply (line_map_parallel_abort_lines double_a
           [JDict [("a", JStr "bad")]; JDict [("a", JInt 1)];
            JDict [("a", JStr "bad")]; JDict [("a", JStr "bad")]]
           "out.jsonl" 2 None 1 (fun _ => (0%float, 1%float)) ∅).
  reflexivity.
Defined.




(** X9. A run of [line_map_parallel] with an error file other than the
    destination, however it ends, leaves in the destination exactly the
    text it wrote, whatever was there before, leaves in the error file what
    was there followed by what the run wrote to the sink, and leaves every
    other file as it was. *)
Theorem line_map_parallel_files (map_func : json -> map_outcome) (source : list json)
    (dest_file error_file : string) (n_worker_tasks n_errors_max : Z)
    (clock : nat -> float * float) (fs : gmap string string) :
  error_file <> dest_file ->
  let r := jsonl_utils_parallel.line_map_parallel map_func source dest_file
             n_worker_tasks (Some error_file) n_errors_max clock fs in
  files_after r !! dest_file = Some (out_written r)
  /\ files_after r !! error_file
     = Some (default EmptyString (fs !! error_file) +:+ err_written r)
  /\ (forall p, p <> dest_file -> p <> error_file -> files_after r !! p = fs !! p).
Proof.
  intros Hne r. subst r. unfold jsonl_utils_parallel.line_map_parallel.
  rewrite line_map_from_results_unfold. simpl.
  split; [|split].
  - rewrite close_file_lookup, decide_True by reflexivity.
    rewrite close_file_lookup, decide_False by exact Hne.
    rewrite open_a_lookup, decide_False by exact Hne.
    unfold open_w. rewrite lookup_insert_eq. reflexivity.
  - rewrite close_file_lookup, decide_False by congruence.
    rewrite close_file_lookup, decide_True by reflexivity.
    rewrite open_a_lookup, decide_True by reflexivity.
    unfold open_w. rewrite lookup_insert_ne by congruence. reflexivity.
  - intros p Hp1 Hp2.
    rewrite close_file_lookup, decide_False by congruence.
    rewrite close_file_lookup, decide_False by congruence.
    rewrite open_a_lookup, decide_False by congruence.
    unfold open_w. rewrite lookup_insert_ne by congruence. reflexivity.
Qed.

Lemma line_map_parallel_files_witness :
  let fs : gmap string string :=
    <["errors.jsonl" := "earlier"]> (<["out.jsonl" := "stale"]> ∅) in
  let r := jsonl_utils_parallel.line_map_parallel double_a scenario_source "out.jsonl" 2
             (Some "errors.jsonl") 5 (fun _ => (0%float, 1%float)) fs in
  "errors.jsonl" <> "out.jsonl"
  /\ files_after r !! "out.jsonl" = Some (out_written r)
  /\ files_after r !! "errors.jsonl"
     = Some ("earlier" +:+ unlines [dumps (JDict [("a", JStr "bad")])]).
Proof.
  assert (Hne : "errors.jsonl" <> "out.jsonl") by discriminate.
  split; [exact Hne|].
  destruct (line_map_parallel_files double_a scenario_source "out.jsonl" "errors.jsonl" 2 5
              (fun _ => (0%float, 1%float))
              (<["errors.jsonl" := "earlier"]> (<["out.jsonl" := "stale"]> ∅)) Hne)
    as (Hdest & Herr & _).
  split; [exact Hdest|]. rewrite Herr. reflexivity.
Defined.




(** * The reducer loop, [line_reduce] *)

Section reduce.
Import jsonl_utils.
Context {S : Type}.
Variable reducer : json -> S -> reducer_outcome S.

Lemma line_reduce_loop_app (l1 l2 : list json) (n : Z) (s : S) :
  line_reduce_loop reducer (l1 ++ l2) n s
  = match line_reduce_loop reducer l1 n s with
    | (s1, n1, None) => line_reduce_loop reducer l2 n1 s1
    | stopped => stopped
    end.
Proof.
  revert n s. induction l1 as [|nxt l1 IH]; intros n s; [reflexivity|].
  simpl. destruct (reducer nxt s) as [s'|s' msg]; [apply IH|reflexivity].
Qed.

Lemma line_reduce_loop_line (l : list json) (n : Z) (s : S) :
  line_reduce_loop reducer l n s
  = let '(s', n', raised) := line_reduce_loop reducer l 0 s in (s', n + n', raised).
Proof.
  revert n s. induction l as [|nxt l IH]; intros n s.
  - simpl. f_equal. f_equal. lia.
  - simpl. destruct (reducer nxt s) as [s'|s' msg].
    + rewrite (IH (n + 1)), (IH (0 + 1)).
      destruct (line_reduce_loop reducer l 0 s') as [[s'' n''] raised].
      f_equal. f_equal. lia.
    + reflexivity.
Qed.

End reduce.

(** X11. When the reducer raises on no record, [line_reduce] returns after
    calling it on every record of the source, once each and in the order of
    the source: the state it leaves is the fold of the reducer over the
    records, and the line counter is the number of records. *)
Theorem line_reduce_all (S : Type) (reducer : json -> S -> jsonl_utils.reducer_outcome S)
    (step : json -> S -> S) (source : list json) (s : S) :
  (forall item s0, In item source -> reducer item s0 = jsonl_utils.Reduced (step item s0)) ->
  jsonl_utils.line_reduce reducer source s
  = (fold_left (fun s0 item => step item s0) source s, Z.of_nat (length source), None).
Proof.
  unfold jsonl_utils.line_reduce. intros Hok.
  assert (Hgen : forall n, jsonl_utils.line_reduce_loop reducer source n s
                 = (fold_left (fun s0 item => step item s0) source s,
                    n + Z.of_nat (length source), None)); [|apply (Hgen 0)].
  revert s. induction source as [|item source IH]; intros s n.
  - simpl. rewrite Z.add_0_r. reflexivity.
  - simpl jsonl_utils.line_reduce_loop. rewrite (Hok item s (or_introl eq_refl)).
    rewrite IH; [|intros x s0 Hx; apply Hok; right; exact Hx].
    simpl fold_left. simpl length. do 2 f_equal. lia.
Qed.

Lemma line_reduce_all_witness :
  let sum_a := fun (item : json) (total : Z) =>
                 match item with
                 | JDict fields => match dict_get "a" fields with
                                   | Some (JInt n) => total + n
                                   | _ => total
                                   end
                 | _ => total
                 end in
  let reducer := fun item total => jsonl_utils.Reduced (sum_a item total) in
  (forall item s0, In item scenario_source -> reducer item s0 = jsonl_utils.Reduced (sum_a item s0))
  /\ jsonl_utils.line_reduce reducer scenario_source 0 = (3, 3, None).
Proof.
  split; [intros item s0 _; reflexivity|].
  exact (line_reduce_all Z
           (fun item total =>
              jsonl_utils.Reduced
                match item with
                | JDict fields => match dict_get "a" fields with
                                  | Some (JInt n) => total + n
                                  | _ => total
                                  end
                | _ => total
                end)
           (fun item total =>
              match item with
              | JDict fields => match dict_get "a" fields with
                                | Some (JInt n) => total + n
                                | _ => total
                                end
              | _ => total
              end)
           scenario_source 0 (fun item s0 _ => eq_refl)).
Defined.

(** X12. [line_reduce] over one source followed by another: when the run
    over the first returns, the whole run is the run over the second from
    the state the first left, the line counter going on; when the reducer
    raises on a record of the first, the whole run ends there with that
    exception, and no record after it is handed to the reducer. *)
Theorem line_reduce_app (S : Type) (reducer : json -> S -> jsonl_utils.reducer_outcome S)
    (source1 source2 : list json) (s : S) :
  jsonl_utils.line_reduce reducer (source1 ++ source2) s
  = match jsonl_utils.line_reduce reducer source1 s with
    | (s1, n1, None) =>
        let '(s2, n2, raised) := jsonl_utils.line_reduce reducer source2 s1 in
        (s2, n1 + n2, raised)
    | (s1, n1, Some msg) => (s1, n1, Some msg)
    end.
Proof.
  unfold jsonl_utils.line_reduce. rewrite line_reduce_loop_app.
  destruct (jsonl_utils.line_reduce_loop reducer source1 0 s) as [[s1 n1] [msg|]];
    [reflexivity|].
  apply line_reduce_loop_line.
Qed.

(** * The command line *)



(** With [--list_subjects], [main] runs no generation and no
    evaluation and raises nothing, whatever the dataset: it prints the
    subjects for bigbench, nothing for mmlu, and one line for any other
    dataset. *)
Theorem main_list_subjects (BIGBENCH_SUBJECTS : list string)
    (args : promptbase_main.arguments) :
  promptbase_main.list_subjects args = true ->
  let run := promptbase_main.main BIGBENCH_SUBJECTS args in
  snd run = None
  /\ List.filter is_call (fst run) = []
  /\ (length (fst run) <= 1)%nat
  /\ (promptbase_main.dataset args = "mmlu" -> fst run = [])
  /\ (promptbase_main.dataset args = "bigbench" -> fst run = [PrintedSubjects]).
Proof.
  intros Hlist. unfold promptbase_main.main. rewrite Hlist.
  destruct (String.eqb_spec (promptbase_main.dataset args) "bigbench") as [Hb|Hb];
    [|destruct (String.eqb_spec (promptbase_main.dataset args) "mmlu") as [Hm|Hm]];
    simpl; repeat split; try lia; try congruence.
Qed.

Lemma main_list_subjects_witness :
  let args := {| promptbase_main.dataset := "gsm8k"; promptbase_main.subject := None;
                 promptbase_main.list_subjects := true |} in
  let run := promptbase_main.main ["date_understanding"] args in
  promptbase_main.list_subjects args = true
  /\ snd run = None
  /\ List.filter is_call (fst run) = []
  /\ (length (fst run) <= 1)%nat
  /\ (promptbase_main.dataset args = "mmlu" -> fst run = [])
  /\ (promptbase_main.dataset args = "bigbench" -> fst run = [PrintedSubjects]).
Proof.
  split; [reflexivity|].
  apply (main_list_subjects ["date_understanding"]
           {| promptbase_main.dataset := "gsm8k"; promptbase_main.subject := None;
              promptbase_main.list_subjects := true |}).
  reflexivity.
Defined.

Lemma subject_known (BIGBENCH_SUBJECTS : list string) (subject : string) :
  existsb (String.eqb subject) BIGBENCH_SUBJECTS = true <-> In subject BIGBENCH_SUBJECTS.
Proof.
  rewrite existsb_exists. split.
  - intros (x & Hx & Heq). apply String.eqb_eq in Heq. subst x. exact Hx.
  - intros Hin. exists subject. split; [exact Hin|apply String.eqb_refl].
Qed.

(** X14. For the dataset bigbench, [main] generates for the subject given,
    or for "all" when none or an empty one is given, and then evaluates.
    [bigbench.generate] runs the two processing steps, in this order, when
    the subject is "all" or one of [BIGBENCH_SUBJECTS]; otherwise it only
    prints that the subject is invalid, and [main] still goes on to the
    scoring. *)
Theorem main_bigbench (BIGBENCH_SUBJECTS : list string) (args : promptbase_main.arguments) :
  promptbase_main.dataset args = "bigbench" ->
  promptbase_main.list_subjects args = false ->
  let subject := match promptbase_main.subject args with
                 | Some (String c s) => String c s
                 | _ => "all"
                 end in
  promptbase_main.main BIGBENCH_SUBJECTS args
  = (bigbench.generate BIGBENCH_SUBJECTS subject ++ [Called "bigbench_score.score" None], None)
  /\ (subject = "all" \/ In subject BIGBENCH_SUBJECTS ->
      bigbench.generate BIGBENCH_SUBJECTS subject
      = [Printed ("Running BigBench generation for subject " +:+ subject);
         Called "bigbench_cot.process_cot" (Some subject);
         Called "bigbench_answer.process_answers" (Some subject)])
  /\ (~ (subject = "all" \/ In subject BIGBENCH_SUBJECTS) ->
      bigbench.generate BIGBENCH_SUBJECTS subject
      = [Printed ("Invalid subject: " +:+ subject)]).
Proof.
  intros Hdata Hlist subject. split; [|split].
  - unfold promptbase_main.main. rewrite Hlist, Hdata. simpl.
    subst subject. destruct (promptbase_main.subject args) as [[|c s]|]; reflexivity.
  - intros Hknown. unfold bigbench.generate.
    destruct (String.eqb_spec subject "all") as [Hall|Hall]; [reflexivity|].
    destruct Hknown as [Hk|Hk]; [congruence|].
    apply subject_known in Hk. rewrite Hk. reflexivity.
  - intros Hunknown. unfold bigbench.generate.
    destruct (String.eqb_spec subject "all") as [Hall|Hall]; [tauto|].
    destruct (existsb (String.eqb subject) BIGBENCH_SUBJECTS) eqn:Hk; [|reflexivity].
    apply subject_known in Hk. tauto.
Qed.

Lemma main_bigbench_witness :
  let args := {| promptbase_main.dataset := "bigbench";
                 promptbase_main.subject := Some "no_such_subject";
                 promptbase_main.list_subjects := false |} in
  promptbase_main.dataset args = "bigbench"
  /\ promptbase_main.list_subjects args = false
  /\ promptbase_main.main ["date_understanding"] args
     = ([Printed "Invalid subject: no_such_subject"; Called "bigbench_score.score" None], None).
Proof.
  split; [reflexivity|]. split; [reflexivity|].
  destruct (main_bigbench ["date_understanding"]
              {| promptbase_main.dataset := "bigbench";
                 promptbase_main.subject := Some "no_such_subject";
                 promptbase_main.list_subjects := false |} eq_refl eq_refl)
    as (Hmain & _ & Hinvalid).
  rewrite Hmain, Hinvalid; [reflexivity|].
  intros [H|[H|[]]]; discriminate H.
Defined.

(** * Decoding what [json.dumps] writes *)

Lemma text_length_app (s t : string) :
  text_length (s +:+ t) = (text_length s + text_length t)%nat.
Proof. induction s as [|c s IH]; [reflexivity|]. rewrite app_cons. simpl. now rewrite IH. Qed.

(** Each character of a string is read back from its escape. *)
Lemma scanstring_escape_char (c : ascii) (tail : string) :
  scanstring (escape_char c +:+ tail) = cons_char c (scanstring tail).
Proof. destruct c as [[] [] [] [] [] [] [] []]; reflexivity. Qed.

Lemma scanstring_escape_string (s rest : string) :
  scanstring (escape_string s +:+ String quote_char rest) = Decoded (s, rest).
Proof.
  induction s as [|c s IH]; [reflexivity|].
  simpl escape_string. rewrite app_text_assoc, scanstring_escape_char, IH. reflexivity.
Qed.

Lemma encode_basestring_ascii_unfold (s rest : string) :
  encode_basestring_ascii s +:+ rest
  = String quote_char (escape_string s +:+ String quote_char rest).
Proof.
  unfold encode_basestring_ascii. rewrite app_cons, app_text_assoc. reflexivity.
Qed.

Lemma ends_number_digit (c : ascii) (rest : string) :
  ends_number (String c rest) = true -> digit_of c = None.
Proof.
  unfold ends_number, is_digit. destruct (digit_of c); [discriminate|reflexivity].
Qed.

Lemma ends_number_not_float (rest : string) :
  ends_number rest = true -> starts_float_part rest = false.
Proof.
  destruct rest as [|c [|d rest]]; try reflexivity.
  unfold ends_number, starts_float_part.
  destruct (N.eqb (N_of_ascii c) 46); [rewrite andb_false_r; discriminate|].
  destruct (N.eqb (N_of_ascii c) 101); [rewrite andb_false_r; discriminate|].
  destruct (N.eqb (N_of_ascii c) 69); [rewrite andb_false_r; discriminate|].
  reflexivity.
Qed.

Lemma scan_digits_uint (d : Decimal.uint) (rest : string) :
  ends_number rest = true ->
  scan_digits (NilEmpty.string_of_uint d +:+ rest) = (d, rest).
Proof.
  intros Hrest.
  induction d; simpl NilEmpty.string_of_uint;
    try (rewrite app_cons; simpl scan_digits; rewrite IHd; reflexivity).
  rewrite app_empty_l. destruct rest as [|c rest]; [reflexivity|].
  simpl. rewrite (ends_number_digit c rest Hrest). reflexivity.
Qed.

(** The decimal digits of a positive number do not start with a zero. *)
Lemma to_uint_leading (p : positive) : forall u, Pos.to_uint p <> Decimal.D0 u.
Proof.
  intros u Heq.
  pose proof (DecimalZ.to_of (Z.to_int (Z.pos p))) as Hnorm.
  rewrite DecimalZ.of_to in Hnorm. simpl in Hnorm.
  injection Hnorm as Hnorm.
  unfold Decimal.unorm in Hnorm.
  destruct (Decimal.nzhead (Pos.to_uint p)) eqn:Hhead;
    try (apply (DecimalFacts.nzhead_nonzero (Pos.to_uint p) u); congruence).
  apply (DecimalPos.Unsigned.to_uint_nonzero p). rewrite Hnorm. reflexivity.
Qed.

Lemma scan_integer_pos (p : positive) (rest : string) :
  ends_number rest = true ->
  scan_integer (NilEmpty.string_of_uint (Pos.to_uint p) +:+ rest)
  = Some (Pos.to_uint p, rest).
Proof.
  intros Hrest.
  pose proof (scan_digits_uint (Pos.to_uint p) rest Hrest) as Hscan.
  pose proof (to_uint_leading p) as Hlead.
  pose proof (DecimalPos.Unsigned.to_uint_nonnil p) as Hnil.
  destruct (Pos.to_uint p) as [|u|u|u|u|u|u|u|u|u|u]; try congruence;
    try (exfalso; apply (Hlead u); reflexivity);
    simpl NilEmpty.string_of_uint in *; rewrite app_cons in *;
    unfold scan_integer; simpl; simpl in Hscan; rewrite Hscan; reflexivity.
Qed.

Lemma of_uint_to_uint (p : positive) : Z.of_uint (Pos.to_uint p) = Z.pos p.
Proof. unfold Z.of_uint. rewrite DecimalPos.Unsigned.of_to. reflexivity. Qed.

Lemma string_of_uint_nonnil (d : Decimal.uint) :
  d <> Decimal.Nil -> NilZero.string_of_uint d = NilEmpty.string_of_uint d.
Proof. destruct d; [congruence|reflexivity..]. Qed.

(** A number is read back from its decimal text, wherever a number can
    end. *)
Lemma scan_number_int (n : Z) (rest : string) :
  ends_number rest = true ->
  scan_number (dumps (JInt n) +:+ rest) = Decoded (JInt n, rest).
Proof.
  intros Hrest. pose proof (ends_number_not_float rest Hrest) as Hfloat.
  simpl dumps. destruct n as [|p|p]; simpl Z.to_int; simpl NilZero.string_of_int.
  - rewrite app_cons, app_empty_l. unfold scan_number. simpl. rewrite Hfloat. reflexivity.
  - rewrite string_of_uint_nonnil by apply DecimalPos.Unsigned.to_uint_nonnil.
    pose proof (scan_integer_pos p rest Hrest) as Hint.
    pose proof (to_uint_leading p) as Hlead.
    pose proof (DecimalPos.Unsigned.to_uint_nonnil p) as Hnil.
    unfold scan_number.
    destruct (NilEmpty.string_of_uint (Pos.to_uint p) +:+ rest) as [|c tail] eqn:Htext.
    + discriminate Hint.
    + destruct (N.eqb_spec (N_of_ascii c) 45) as [Hminus|Hminus].
      * exfalso. unfold scan_integer in Hint.
        rewrite Hminus in Hint. simpl in Hint. unfold is_digit, digit_of in Hint.
        rewrite Hminus in Hint. simpl in Hint. discriminate Hint.
      * rewrite Hint, Hfloat, of_uint_to_uint. reflexivity.
  - rewrite string_of_uint_nonnil by apply DecimalPos.Unsigned.to_uint_nonnil.
    rewrite app_cons. unfold scan_number. simpl.
    rewrite (scan_integer_pos p rest Hrest), Hfloat, of_uint_to_uint. reflexivity.
Qed.

(** One step of the decoder, case by case. *)
Lemma scan_once_list (fuel : nat) (text : string) :
  scan_once (S fuel) (String "[" text)
  = match skip_whitespace text with
    | String c rest =>
        if N.eqb (N_of_ascii c) 93 then Decoded (JList [], rest)
        else scan_items fuel (String c rest) []
    | EmptyString => JSONDecodeError
    end.
Proof. reflexivity. Qed.

Lemma scan_once_dict (fuel : nat) (text : string) :
  scan_once (S fuel) (String "{" text)
  = match skip_whitespace text with
    | String c rest =>
        if N.eqb (N_of_ascii c) 125 then Decoded (JDict [], rest)
        else scan_members fuel (String c rest) []
    | EmptyString => JSONDecodeError
    end.
Proof. reflexivity. Qed.

Lemma scan_once_string (fuel : nat) (text : string) :
  scan_once (S fuel) (String quote_char text)
  = match scanstring text with
    | Decoded (str, rest) => Decoded (JStr str, rest)
    | JSONDecodeError => JSONDecodeError
    | Unmodelled => Unmodelled
    end.
Proof. reflexivity. Qed.

Lemma scan_items_step (fuel : nat) (text : string) (seen : list json) :
  scan_items (S fuel) text seen
  = match scan_once fuel text with
    | Decoded (v, rest) =>
        match skip_whitespace rest with
        | String c rest' =>
            if N.eqb (N_of_ascii c) 93 then Decoded (JList (seen ++ [v]), rest')
            else if N.eqb (N_of_ascii c) 44
            then scan_items fuel (skip_whitespace rest') (seen ++ [v])
            else JSONDecodeError
        | EmptyString => JSONDecodeError
        end
    | JSONDecodeError => JSONDecodeError
    | Unmodelled => Unmodelled
    end.
Proof. reflexivity. Qed.

Lemma scan_members_step (fuel : nat) (text : string) (seen : list (string * json)) :
  scan_members (S fuel) (String quote_char text) seen
  = match scanstring text with
    | Decoded (key, rest1) =>
        match skip_whitespace rest1 with
        | String colon rest2 =>
            if N.eqb (N_of_ascii colon) 58 then
              match scan_once fuel (skip_whitespace rest2) with
              | Decoded (v, rest3) =>
                  match skip_whitespace rest3 with
                  | String c rest4 =>
                      if N.eqb (N_of_ascii c) 125
                      then Decoded (JDict (dict_set key v seen), rest4)
                      else if N.eqb (N_of_ascii c) 44
                      then scan_members fuel (skip_whitespace rest4) (dict_set key v seen)
                      else JSONDecodeError
                  | EmptyString => JSONDecodeError
                  end
              | JSONDecodeError => JSONDecodeError
              | Unmodelled => Unmodelled
              end
            else JSONDecodeError
        | EmptyString => JSONDecodeError
        end
    | JSONDecodeError => JSONDecodeError
    | Unmodelled => Unmodelled
    end.
Proof. reflexivity. Qed.

(** A text that begins a value is not touched by the skipping of
    whitespace, and is none of the closing marks. *)
Lemma value_head_facts (c : ascii) :
  value_head c = true ->
  (forall text, skip_whitespace (String c text) = String c text)
  /\ N.eqb (N_of_ascii c) 93 = false
  /\ N.eqb (N_of_ascii c) 125 = false.
Proof.
  destruct c as [[] [] [] [] [] [] [] []]; try discriminate; intros _; repeat split.
Qed.

Lemma scan_once_number (c : ascii) (text : string) (fuel : nat) :
  (is_digit c || N.eqb (N_of_ascii c) 45)%bool = true ->
  scan_once (S fuel) (String c text) = scan_number (String c text).
Proof.
  destruct c as [[] [] [] [] [] [] [] []]; try discriminate; intros _; reflexivity.
Qed.

Lemma uint_text_head (d : Decimal.uint) (rest : string) :
  d <> Decimal.Nil ->
  exists c tail, NilEmpty.string_of_uint d +:+ rest = String c tail /\ is_digit c = true.
Proof.
  destruct d; [congruence|..]; intros _; simpl; rewrite app_cons;
    eexists; eexists; (split; [reflexivity|reflexivity]).
Qed.

Lemma int_text_head (n : Z) (rest : string) :
  exists c tail, dumps (JInt n) +:+ rest = String c tail
                 /\ (is_digit c || N.eqb (N_of_ascii c) 45)%bool = true.
Proof.
  simpl dumps. destruct n as [|p|p]; simpl.
  - rewrite app_cons. eexists; eexists; split; reflexivity.
  - rewrite string_of_uint_nonnil by apply DecimalPos.Unsigned.to_uint_nonnil.
    destruct (uint_text_head (Pos.to_uint p) rest (DecimalPos.Unsigned.to_uint_nonnil p))
      as (c & tail & -> & Hc).
    exists c, tail. rewrite Hc. split; reflexivity.
  - rewrite app_cons. eexists; eexists; split; reflexivity.
Qed.

(** What [json.dumps] writes begins a value. *)
Lemma dumps_head (v : json) (rest : string) :
  exists c tail, dumps v +:+ rest = String c tail /\ value_head c = true.
Proof.
  destruct v as [ | [|] | n | s | items | fields ];
    try (simpl dumps; rewrite app_cons; eexists; eexists; split; reflexivity).
  - destruct (int_text_head n rest) as (c & tail & Heq & Hc).
    exists c, tail. split; [exact Heq|].
    unfold value_head. apply orb_true_iff in Hc as [Hc|Hc]; rewrite Hc;
      rewrite ?orb_true_r; reflexivity.
  - simpl dumps. rewrite encode_basestring_ascii_unfold.
    eexists; eexists; split; reflexivity.
Qed.

Lemma skip_whitespace_dumps (v : json) (rest : string) :
  skip_whitespace (dumps v +:+ rest) = dumps v +:+ rest.
Proof.
  destruct (dumps_head v rest) as (c & tail & -> & Hc).
  apply (value_head_facts c Hc).
Qed.

Lemma unique_keys_NoDup (keys : list string) :
  unique_keys keys = true <-> List.NoDup keys.
Proof.
  induction keys as [|k keys IH]; simpl.
  - split; [constructor|reflexivity].
  - assert (Hin : existsb (String.eqb k) keys = false <-> ~ In k keys).
    { rewrite <- not_true_iff_false, subject_known. reflexivity. }
    rewrite andb_true_iff, negb_true_iff, IH, Hin. split.
    + intros [Hk Hrest]. constructor; assumption.
    + intros Hnd. inversion Hnd; subst. split; assumption.
Qed.

Lemma dict_set_fresh (key : string) (v : json) (seen : list (string * json)) :
  ~ In key (List.map fst seen) -> dict_set key v seen = seen ++ [(key, v)].
Proof.
  induction seen as [|[k w] seen IH]; intros Hfresh; [reflexivity|].
  simpl in *. destruct (String.eqb_spec k key) as [->|Hne]; [tauto|].
  rewrite IH by tauto. reflexivity.
Qed.

Lemma scan_items_close (fuel : nat) (text rest : string) (v : json) (seen : list json) :
  scan_once fuel text = Decoded (v, String "]" rest) ->
  scan_items (S fuel) text seen = Decoded (JList (seen ++ [v]), rest).
Proof. intros H. rewrite scan_items_step, H. reflexivity. Qed.

Lemma scan_items_comma (fuel : nat) (text tail : string) (v : json) (seen : list json) :
  scan_once fuel text = Decoded (v, String "," (String " " tail)) ->
  scan_items (S fuel) text seen = scan_items fuel (skip_whitespace tail) (seen ++ [v]).
Proof. intros H. rewrite scan_items_step, H. reflexivity. Qed.

Lemma scan_members_close (fuel : nat) (key body rest : string) (v : json)
    (seen : list (string * json)) :
  scan_once fuel (skip_whitespace body) = Decoded (v, String "}" rest) ->
  scan_members (S fuel)
    (String quote_char (escape_string key +:+ String quote_char (String ":" (String " " body))))
    seen
  = Decoded (JDict (dict_set key v seen), rest).
Proof.
  intros H. rewrite scan_members_step, scanstring_escape_string.
  change (skip_whitespace (String ":" (String " " body))) with (String ":" (String " " body)).
  cbv iota beta. change (N.eqb (N_of_ascii ":") 58) with true. cbv iota.
  change (skip_whitespace (String " " body)) with (skip_whitespace body).
  rewrite H. reflexivity.
Qed.

Lemma scan_members_comma (fuel : nat) (key body tail : string) (v : json)
    (seen : list (string * json)) :
  scan_once fuel (skip_whitespace body) = Decoded (v, String "," (String " " tail)) ->
  scan_members (S fuel)
    (String quote_char (escape_string key +:+ String quote_char (String ":" (String " " body))))
    seen
  = scan_members fuel (skip_whitespace tail) (dict_set key v seen).
Proof.
  intros H. rewrite scan_members_step, scanstring_escape_string.
  change (skip_whitespace (String ":" (String " " body))) with (String ":" (String " " body)).
  cbv iota beta. change (N.eqb (N_of_ascii ":") 58) with true. cbv iota.
  change (skip_whitespace (String " " body)) with (skip_whitespace body).
  rewrite H. reflexivity.
Qed.

Lemma may_precede_close (v : json) (c : ascii) (rest : string) :
  (N.eqb (N_of_ascii c) 93 || N.eqb (N_of_ascii c) 125 || N.eqb (N_of_ascii c) 44
   || N.eqb (N_of_ascii c) 10)%bool = true ->
  may_precede v (String c rest) = true.
Proof.
  intros Hc. destruct v; try reflexivity. unfold may_precede, ends_number.
  destruct c as [[] [] [] [] [] [] [] []]; try discriminate Hc; reflexivity.
Qed.

Lemma join_cons2 (sep p q : string) (parts : list string) :
  join sep (p :: q :: parts) = p +:+ sep +:+ join sep (q :: parts).
Proof. reflexivity. Qed.

(** The elements of a list are read back one after the other. *)
Lemma scan_items_dumps (items : list json) :
  Forall reads_back items -> items <> [] ->
  forall fuel seen rest,
    (1 + text_length (join ", " (List.map dumps items)) <= fuel)%nat ->
    scan_items fuel (join ", " (List.map dumps items) +:+ String "]" rest) seen
    = Decoded (JList (seen ++ items), rest).
Proof.
  induction 1 as [|item more Hitem Hmore IH]; [congruence|]. intros _ fuel seen rest Hfuel.
  destruct fuel as [|fuel]; [lia|].
  destruct more as [|next more].
  - simpl List.map in *. simpl join in *.
    apply scan_items_close. apply Hitem; [lia|].
    apply may_precede_close. reflexivity.
  - simpl List.map in *. rewrite join_cons2 in *.
    rewrite !text_length_app in Hfuel. change (text_length ", ") with 2%nat in Hfuel.
    rewrite !app_text_assoc.
    change (", " +:+ ?x) with (String "," (String " " x)).
    rewrite (scan_items_comma fuel _
               (join ", " (dumps next :: List.map dumps more) +:+ String "]" rest) item).
    + assert (Hskip : skip_whitespace
                        (join ", " (dumps next :: List.map dumps more) +:+ String "]" rest)
                      = join ", " (dumps next :: List.map dumps more) +:+ String "]" rest).
      { destruct (List.map dumps more) as [|q parts] eqn:Hparts.
        - simpl join. apply skip_whitespace_dumps.
        - rewrite join_cons2, app_text_assoc. apply skip_whitespace_dumps. }
      rewrite Hskip.
      replace (seen ++ item :: next :: more) with ((seen ++ [item]) ++ next :: more)
        by (rewrite <- app_assoc; reflexivity).
      apply (IH ltac:(congruence)).
      simpl List.map. lia.
    + apply Hitem; [lia|]. apply may_precede_close. reflexivity.
Qed.

Lemma skip_whitespace_member (kv : string * json) (rest : string) :
  skip_whitespace (member_text kv +:+ rest) = member_text kv +:+ rest.
Proof.
  unfold member_text. rewrite !app_text_assoc, encode_basestring_ascii_unfold. reflexivity.
Qed.

(** The members of a dictionary are read back one after the other, each
    under its key. *)
Lemma scan_members_dumps (fields : list (string * json)) :
  Forall (fun kv => reads_back (snd kv)) fields -> fields <> [] ->
  forall fuel seen rest,
    List.NoDup (List.map fst seen ++ List.map fst fields) ->
    (1 + text_length (join ", " (List.map member_text fields)) <= fuel)%nat ->
    scan_members fuel (join ", " (List.map member_text fields) +:+ String "}" rest) seen
    = Decoded (JDict (seen ++ fields), rest).
Proof.
  induction 1 as [|[key v] more Hv Hmore IH]; [congruence|].
  intros _ fuel seen rest Hnodup Hfuel.
  destruct fuel as [|fuel]; [lia|].
  assert (Hfresh : ~ In key (List.map fst seen)).
  { simpl List.map in Hnodup. apply NoDup_remove_2 in Hnodup.
    intros Hin. apply Hnodup. apply in_or_app. left. exact Hin. }
  simpl snd in Hv.
  destruct more as [|next more].
  - simpl List.map in *. simpl join in *. unfold member_text in *. simpl fst in *. simpl snd in *.
    rewrite !text_length_app in Hfuel.
    rewrite !app_text_assoc, encode_basestring_ascii_unfold.
    change (": " +:+ ?x) with (String ":" (String " " x)).
    rewrite (scan_members_close fuel key _ rest v).
    + rewrite dict_set_fresh by exact Hfresh. reflexivity.
    + rewrite skip_whitespace_dumps. apply Hv; [lia|].
      apply may_precede_close. reflexivity.
  - simpl List.map in *. rewrite join_cons2 in *.
    unfold member_text at 1. unfold member_text at 1 in Hfuel.
    simpl fst in *. simpl snd in *.
    rewrite !text_length_app in Hfuel. change (text_length ", ") with 2%nat in Hfuel.
    rewrite !app_text_assoc, encode_basestring_ascii_unfold.
    change (": " +:+ ?x) with (String ":" (String " " x)).
    change (", " +:+ ?x) with (String "," (String " " x)).
    rewrite (scan_members_comma fuel key _
               (join ", " (member_text next :: List.map member_text more) +:+ String "}" rest) v).
    + assert (Hskip : skip_whitespace
                        (join ", " (member_text next :: List.map member_text more)
                         +:+ String "}" rest)
                      = join ", " (member_text next :: List.map member_text more)
                        +:+ String "}" rest).
      { destruct (List.map member_text more) as [|q parts] eqn:Hparts.
        - simpl join. apply skip_whitespace_member.
        - rewrite join_cons2, app_text_assoc. apply skip_whitespace_member. }
      rewrite Hskip, dict_set_fresh by exact Hfresh.
      replace (seen ++ (key, v) :: next :: more) with ((seen ++ [(key, v)]) ++ next :: more)
        by (rewrite <- app_assoc; reflexivity).
      apply (IH ltac:(congruence)).
      * rewrite List.map_app, <- app_assoc. exact Hnodup.
      * simpl List.map. lia.
    + rewrite skip_whitespace_dumps. apply Hv; [lia|].
      apply may_precede_close. reflexivity.
Qed.

Lemma scan_once_list_items (fuel : nat) (text : string) (c : ascii) (tail : string) :
  text = String c tail -> value_head c = true ->
  scan_once (S fuel) (String "[" text) = scan_items fuel text [].
Proof.
  intros -> Hc. rewrite scan_once_list.
  destruct (value_head_facts c Hc) as (Hskip & Hclose & _).
  rewrite Hskip, Hclose. reflexivity.
Qed.

Lemma scan_once_dict_members (fuel : nat) (text : string) (c : ascii) (tail : string) :
  text = String c tail -> value_head c = true ->
  scan_once (S fuel) (String "{" text) = scan_members fuel text [].
Proof.
  intros -> Hc. rewrite scan_once_dict.
  destruct (value_head_facts c Hc) as (Hskip & _ & Hclose).
  rewrite Hskip, Hclose. reflexivity.
Qed.

Lemma join_head (first : string) (parts : list string) (rest : string) (c : ascii)
    (tail : string) :
  (forall rest', exists tail', first +:+ rest' = String c tail') ->
  exists tail', join ", " (first :: parts) +:+ rest = String c tail'.
Proof.
  intros Hfirst. destruct parts as [|q parts].
  - simpl join. apply Hfirst.
  - rewrite join_cons2, app_text_assoc. apply Hfirst.
Qed.

(** The decoder reads back every value from the text [json.dumps] writes
    for it. *)
Lemma scan_once_dumps (v : json) : well_formed v = true -> reads_back v.
Proof.
  induction v as [ | b | n | s | items IH | fields IH ] using json_nested_ind;
    intros Hwf fuel rest Hfuel Hrest.
  - destruct fuel as [|fuel]; [simpl in Hfuel; lia|]. reflexivity.
  - destruct fuel as [|fuel]; [destruct b; simpl in Hfuel; lia|]. destruct b; reflexivity.
  - destruct (int_text_head n rest) as (c & tail & Htext & Hc).
    destruct fuel as [|fuel].
    { destruct (int_text_head n EmptyString) as (c' & tail' & Htext' & _).
      rewrite app_empty_r in Htext'. rewrite Htext' in Hfuel. simpl in Hfuel. lia. }
    rewrite Htext, (scan_once_number c tail fuel Hc), <- Htext.
    apply scan_number_int. exact Hrest.
  - destruct fuel as [|fuel]; [simpl in Hfuel; lia|].
    simpl dumps. rewrite encode_basestring_ascii_unfold, scan_once_string,
      scanstring_escape_string. reflexivity.
  - simpl well_formed in Hwf. rewrite forallb_forall in Hwf.
    assert (Hall : Forall reads_back items).
    { rewrite List.Forall_forall in IH. apply List.Forall_forall.
      intros item Hin. apply IH; [exact Hin|]. apply Hwf. exact Hin. }
    simpl dumps in *. rewrite !text_length_app in Hfuel.
    change (text_length "[") with 1%nat in Hfuel.
    change (text_length "]") with 1%nat in Hfuel.
    rewrite !app_text_assoc.
    change ("]" +:+ rest) with (String "]" rest).
    change ("[" +:+ ?x) with (String "[" x).
    destruct fuel as [|fuel]; [lia|].
    destruct items as [|item items]; [reflexivity|].
    destruct (dumps_head item EmptyString) as (c & tail0 & Hhead & Hc).
    rewrite app_empty_r in Hhead.
    destruct (join_head (dumps item) (List.map dumps items) (String "]" rest) c tail0)
      as (tail & Htext).
    { intros rest'. rewrite Hhead, app_cons. eexists. reflexivity. }
    simpl List.map in *.
    rewrite (scan_once_list_items fuel _ c tail Htext Hc).
    apply (scan_items_dumps (item :: items) Hall); [congruence|].
    simpl List.map. lia.
  - simpl well_formed in Hwf. apply andb_true_iff in Hwf as [Hkeys Hwf].
    rewrite forallb_forall in Hwf. apply unique_keys_NoDup in Hkeys.
    assert (Hall : Forall (fun kv => reads_back (snd kv)) fields).
    { rewrite List.Forall_forall in IH. apply List.Forall_forall.
      intros kv Hin. apply IH; [exact Hin|]. apply Hwf. exact Hin. }
    simpl dumps in *.
    change (List.map (fun kv => encode_basestring_ascii (fst kv) +:+ ": " +:+ dumps (snd kv))
              fields) with (List.map member_text fields) in *.
    rewrite !text_length_app in Hfuel.
    change (text_length "{") with 1%nat in Hfuel.
    change (text_length "}") with 1%nat in Hfuel.
    rewrite !app_text_assoc.
    change ("}" +:+ rest) with (String "}" rest).
    change ("{" +:+ ?x) with (String "{" x).
    destruct fuel as [|fuel]; [lia|].
    destruct fields as [|kv fields]; [reflexivity|].
    destruct (join_head (member_text kv) (List.map member_text fields)
                (String "}" rest) quote_char EmptyString) as (tail & Htext).
    { intros rest'. unfold member_text.
      rewrite !app_text_assoc, encode_basestring_ascii_unfold. eexists. reflexivity. }
    simpl List.map in *.
    rewrite (scan_once_dict_members fuel _ quote_char tail Htext eq_refl).
    apply (scan_members_dumps (kv :: fields) Hall); [congruence| |].
    + exact Hkeys.
    + simpl List.map. lia.
Qed.

Lemma text_length_dumps_pos (v : json) : (1 <= text_length (dumps v))%nat.
Proof.
  destruct (dumps_head v EmptyString) as (c & tail & Htext & _).
  rewrite app_empty_r in Htext. rewrite Htext. simpl. lia.
Qed.

(** Decoding the text of a value followed by some more text. *)
Lemma loads_dumps_rest (v : json) (rest : string) :
  well_formed v = true -> may_precede v rest = true ->
  loads (dumps v +:+ rest)
  = match skip_whitespace rest with
    | EmptyString => Decoded v
    | String _ _ => JSONDecodeError
    end.
Proof.
  intros Hwf Hrest. unfold loads. rewrite skip_whitespace_dumps.
  rewrite (scan_once_dumps v Hwf); [reflexivity| |exact Hrest].
  rewrite text_length_app. lia.
Qed.

Lemma printable_not_terminator (c : ascii) :
  printable c = true ->
  Ascii.eqb c newline_char = false /\ Ascii.eqb c carriage_return_char = false.
Proof. destruct c as [[] [] [] [] [] [] [] []]; try discriminate; split; reflexivity. Qed.

(** A line without line break in it is read up to its terminator. *)
Lemma read_lines_line (l : string) (line rest : string) :
  all_printable l ->
  read_lines line (l +:+ String newline_char rest)
  = ((line +:+ l) +:+ newline) :: read_lines EmptyString rest.
Proof.
  revert line. induction l as [|c l IH]; intros line Hl.
  - rewrite app_empty_l, app_empty_r. reflexivity.
  - unfold all_printable in Hl. simpl in Hl. apply Forall_cons in Hl as [Hc Hl].
    destruct (printable_not_terminator c Hc) as [Hlf Hcr].
    rewrite app_cons. simpl read_lines. rewrite Hlf, Hcr.
    rewrite (IH (line +:+ String c EmptyString) Hl).
    rewrite (app_text_assoc line (String c EmptyString) l). reflexivity.
Qed.


Lemma read_lines_unlines (ls : list string) (rest : string) :
  Forall all_printable ls ->
  read_lines EmptyString (unlines ls +:+ rest)
  = List.map (fun l => l +:+ newline) ls ++ read_lines EmptyString rest.
Proof.
  induction 1 as [|l ls Hl _ IH]; [reflexivity|].
  simpl unlines. rewrite !app_text_assoc.
  change (newline +:+ ?x) with (String newline_char x).
  rewrite (read_lines_line l EmptyString _ Hl), IH. reflexivity.
Qed.

Lemma iterate_app (lines more : list string) (values : list json) :
  jsonl_file.iterate lines = (values, Decoded tt) ->
  jsonl_file.iterate (lines ++ more)
  = let '(records, ended) := jsonl_file.iterate more in (values ++ records, ended).
Proof.
  revert values. induction lines as [|l lines IH]; intros values.
  - simpl. intros H. injection H as <-. destruct (jsonl_file.iterate more). reflexivity.
  - simpl. destruct (loads l) as [v| |]; try discriminate.
    destruct (jsonl_file.iterate lines) as [records ended] eqn:Hrest.
    intros H. injection H as <- ->.
    rewrite (IH records eq_refl).
    destruct (jsonl_file.iterate more). reflexivity.
Qed.

(** The lines [json.dumps] gives for well-formed values, each with its
    terminator, are decoded to these values. *)
Lemma iterate_dumps_lines (values : list json) :
  forallb well_formed values = true ->
  jsonl_file.iterate (List.map (fun l => l +:+ newline) (List.map dumps values))
  = (values, Decoded tt).
Proof.
  induction values as [|v values IH]; [reflexivity|].
  simpl forallb. rewrite andb_true_iff. intros [Hv Hvalues].
  simpl. rewrite (loads_dumps_rest v newline Hv);
    [|apply may_precede_close; reflexivity].
  change (skip_whitespace newline) with EmptyString. cbv iota.
  rewrite (IH Hvalues). reflexivity.
Qed.

Lemma dumps_lines_printable (values : list json) :
  Forall all_printable (List.map dumps values).
Proof.
  apply List.Forall_forall. intros l Hl. apply in_map_iff in Hl as (v & <- & _).
  apply dumps_printable.
Qed.


(** What [json.dumps] writes for a value is decoded by [json.loads]
    to that value, also with the line terminator the mappers write after
    it, provided no dictionary in the value has a key twice (as in every
    value [json.loads] builds). *)
Theorem loads_dumps (v : json) :
  well_formed v = true ->
  loads (dumps v) = Decoded v /\ loads (dumps v +:+ newline) = Decoded v.
Proof.
  intros Hwf. split.
  - rewrite <- (app_empty_r (dumps v)).
    rewrite (loads_dumps_rest v EmptyString Hwf); [reflexivity|].
    destruct v; reflexivity.
  - rewrite (loads_dumps_rest v newline Hwf); [reflexivity|].
    apply may_precede_close. reflexivity.
Qed.

Lemma loads_dumps_witness :
  let v := JDict [("a", JInt (-12)); ("b", JList [JStr "x y"; JNull; JBool true; JDict []])] in
  well_formed v = true
  /\ loads (dumps v) = Decoded v /\ loads (dumps v +:+ newline) = Decoded v.
Proof.
  split; [reflexivity|].
  apply (loads_dumps
           (JDict [("a", JInt (-12)); ("b", JList [JStr "x y"; JNull; JBool true; JDict []])])).
  reflexivity.
Defined.

(** * Reading back what the mappers wrote *)














(** X18. A [_JSONLFile] does not skip blank lines: on a file that has an
    empty line after some records, it hands over these records and then
    [json.loads] raises a JSONDecodeError on the empty line, whatever
    follows it. *)
Theorem blank_line_stops_reader (values : list json) (following : string) :
  forallb well_formed values = true ->
  jsonl_file.iterate
    (read_lines EmptyString (unlines (List.map dumps values) +:+ newline +:+ following))
  = (values, JSONDecodeError).
Proof.
  intros Hwf.
  rewrite read_lines_unlines by apply dumps_lines_printable.
  rewrite (iterate_app _ _ values (iterate_dumps_lines values Hwf)).
  change (newline +:+ following) with (String newline_char following).
  simpl read_lines. simpl jsonl_file.iterate.
  change (loads (EmptyString +:+ newline)) with (@JSONDecodeError json).
  cbv iota. rewrite app_nil_r. reflexivity.
Qed.

Lemma blank_line_stops_reader_witness :
  forallb well_formed scenario_source = true
  /\ jsonl_file.iterate
       (read_lines EmptyString
          (unlines (List.map dumps scenario_source) +:+ newline +:+ dumps (JInt 7)))
     = (scenario_source, JSONDecodeError).
Proof.
  split; [reflexivity|]. apply (blank_line_stops_reader scenario_source). reflexivity.
Defined.
